(** * keychain-synced-storage: the encrypted write-behind store

    A shallow embedding of [src/keychainStorage.ts].  The class
    [KeychainSyncedStore] keeps three mutable fields ([memory],
    [biometricsEnabled], [encryptionKey]) and talks to three native modules
    (AsyncStorage, react-native-keychain, react-native-aes-crypto).  Every
    [await] on a native call is a node of a finite program tree whose
    continuation receives either the resolved value or the thrown value;
    every call to [this.logger] is an output node.  The class fields are
    threaded through as explicit state that survives exceptions, exactly as
    [this] survives a [catch].

    A run is one method call from start to finish; what other calls might
    do to the fields while this one is suspended is outside the model.
    Values follow the TypeScript types: keys, blobs and map entries are
    strings. *)

From Stdlib Require Import Ascii String.
From stdpp Require Import gmap strings list fin_maps pretty.

Set Default Proof Using "Type".
Local Open Scope string_scope.

(** ** JavaScript values the model needs *)

(** What a [catch] clause may receive: an instance of [Error] carrying a
    message, or some other thrown value. *)
Inductive Thrown : Type :=
| ErrorObject (message : string)
| NonError (description : string).

(** [String.prototype.includes]. *)
Fixpoint includes (needle hay : string) : bool :=
  String.prefix needle hay ||
  match hay with
  | EmptyString => false
  | String _ rest => includes needle rest
  end.

(** Truthiness of a [string | null]: [null] and the empty string are falsy. *)
Definition truthy (v : option string) : bool :=
  match v with
  | Some s => negb (String.eqb s "")
  | None => false
  end.

(** [String(b)] and the rendering of a boolean inside a template string. *)
Definition String_of_bool (b : bool) : string := if b then "true" else "false".

(** [a || b] on strings, as used for the prompt defaults. *)
Definition or_else (a : option string) (b : string) : string :=
  match a with
  | Some s => if String.eqb s "" then b else s
  | None => b
  end.

(** [a ?? b]. *)
Definition nullish {A} (a : option A) (b : A) : A :=
  match a with Some x => x | None => b end.

(** ** react-native-keychain option objects *)

Inductive ACCESSIBLE : Type := WHEN_UNLOCKED_THIS_DEVICE_ONLY.
Inductive ACCESS_CONTROL : Type := BIOMETRY_CURRENT_SET_OR_DEVICE_PASSCODE.
Inductive SECURITY_LEVEL : Type := SECURE_HARDWARE | SECURE_SOFTWARE.
Inductive STORAGE_TYPE : Type := AES_GCM.

Record AuthenticationPrompt : Type := {
  title : string;
  subtitle : string;
  cancel : string;
}.

Record SetOptions : Type := {
  service : option string;
  accessible : option ACCESSIBLE;
  accessControl : option ACCESS_CONTROL;
  securityLevel : option SECURITY_LEVEL;
  storage : option STORAGE_TYPE;
  authenticationPrompt : option AuthenticationPrompt;
}.

Definition later_wins {A} (a b : option A) : option A :=
  match b with Some _ => b | None => a end.

(** Object spread [{ ...a, ...b }]: a property present in [b] wins. *)
Definition spread (a b : SetOptions) : SetOptions :=
  {| service := later_wins (service a) (service b);
     accessible := later_wins (accessible a) (accessible b);
     accessControl := later_wins (accessControl a) (accessControl b);
     securityLevel := later_wins (securityLevel a) (securityLevel b);
     storage := later_wins (storage a) (storage b);
     authenticationPrompt :=
       later_wins (authenticationPrompt a) (authenticationPrompt b) |}.

(** [false | UserCredentials], the resolution of [getGenericPassword]. *)
Inductive GetResult : Type :=
| NoCredentials
| UserCredentials (username password : string).

(** ** Options and configuration *)

Record AuthPromptOptions : Type := {
  opt_title : option string;
  opt_subtitle : option string;
  opt_cancel : option string;
}.

(** A JavaScript number as this code sees it.  [storageVersion] is used
    only inside template literals, so all the code ever learns of the number
    is the string [`${n}`] renders it to: "1" for 1, "0.5", "1e+21" for
    10^21, "NaN".  Numbers that are equal render alike, and two numbers
    that render alike are equal, [0] and [-0] apart. *)
Record JsNumber : Type := {
  Number_toString : string;
}.

Record KeychainStorageOptions : Type := {
  authPrompt : option AuthPromptOptions;
  storagePrefixKey : option string;
  storageVersion : option JsNumber;
  enableLogging : option bool;
}.

Record KeychainStorageConfig : Type := {
  serviceName : string;
  encryptionKeyUsername : string;
  biometricsPreferenceKey : string;
  encryptedDataKey : string;
  encryptionSalt : string;
  keychainOptions : SetOptions;
  keychainOptionsWithBiometrics : SetOptions;
  keychainOptionsWithoutBiometrics : SetOptions;
}.

Definition DEFAULT_STORAGE_VERSION : JsNumber := {| Number_toString := "1" |}.

(** The template [`${prefix}.<what>.v${storageVersion}`]. *)
Definition versioned (prefix what : string) (storageVersion : JsNumber)
  : string :=
  prefix +:+ "." +:+ what +:+ ".v" +:+ Number_toString storageVersion.

Definition createConfig (options : KeychainStorageOptions)
  : KeychainStorageConfig :=
  let storageVersion := nullish (storageVersion options) DEFAULT_STORAGE_VERSION in
  let prefix := nullish (storagePrefixKey options) "kss" in
  let serviceName := versioned prefix "service" storageVersion in
  let encryptionKeyUsername := versioned prefix "key" storageVersion in
  let biometricsPreferenceKey := versioned prefix "enabled" storageVersion in
  let encryptedDataKey := versioned prefix "storage" storageVersion in
  let encryptionSalt := versioned prefix "salt" storageVersion in
  let keychainOptions :=
    {| service := Some serviceName;
       accessible := Some WHEN_UNLOCKED_THIS_DEVICE_ONLY;
       accessControl := None; securityLevel := None; storage := None;
       authenticationPrompt := None |} in
  let keychainOptionsWithBiometrics :=
    spread keychainOptions
      {| service := None;
         accessible := Some WHEN_UNLOCKED_THIS_DEVICE_ONLY;
         accessControl := Some BIOMETRY_CURRENT_SET_OR_DEVICE_PASSCODE;
         securityLevel := Some SECURE_HARDWARE;
         storage := Some AES_GCM;
         authenticationPrompt := None |} in
  let keychainOptionsWithoutBiometrics :=
    spread keychainOptions
      {| service := None; accessible := None; accessControl := None;
         securityLevel := Some SECURE_SOFTWARE; storage := None;
         authenticationPrompt := None |} in
  {| serviceName := serviceName;
     encryptionKeyUsername := encryptionKeyUsername;
     biometricsPreferenceKey := biometricsPreferenceKey;
     encryptedDataKey := encryptedDataKey;
     encryptionSalt := encryptionSalt;
     keychainOptions := keychainOptions;
     keychainOptionsWithBiometrics := keychainOptionsWithBiometrics;
     keychainOptionsWithoutBiometrics := keychainOptionsWithoutBiometrics |}.

(** ** Native calls, log lines and asynchronous programs *)

(** One constructor per native function the class awaits; the index is the
    type the returned promise resolves to. *)
Inductive Call : Type → Type :=
| AsyncStorage_getItem (key : string) : Call (option string)
| AsyncStorage_setItem (key value : string) : Call unit
| Keychain_getGenericPassword (opts : SetOptions) : Call GetResult
| Keychain_setGenericPassword (username password : string) (opts : SetOptions)
  : Call unit
| Aes_randomKey (length : nat) : Call string
| Aes_pbkdf2 (password salt : string) (cost length : nat) (alg : string)
  : Call string
| Aes_encrypt (text key iv algorithm : string) : Call string
| Aes_decrypt (ciphertext key iv algorithm : string) : Call string.

Inductive Level : Type := log_ | warn_ | error_.

(** A call [this.logger.<level>(text)] or [this.logger.<level>(text, err)].
    Whether it prints is decided by [createLogger]; the model records the
    call. *)
Record LogLine : Type := {
  level : Level;
  text : string;
  detail : option Thrown;
}.

(** A promise settles with a value or with what was thrown. *)
Definition Settled (X : Type) : Type := Thrown + X.

(** The body of an [async] function with every suspension point explicit. *)
Inductive Async (A : Type) : Type :=
| Ret (a : A)
| Log (line : LogLine) (rest : Async A)
| Await {X : Type} (c : Call X) (k : Settled X → Async A).

Arguments Ret {A} a.
Arguments Log {A} line rest.
Arguments Await {A X} c k.

Fixpoint abind {A B} (p : Async A) (f : A → Async B) : Async B :=
  match p with
  | Ret a => f a
  | Log line rest => Log line (abind rest f)
  | Await c k => Await c (λ r, abind (k r) f)
  end.

(** What an observer of one run sees, in order. *)
Inductive Event : Type :=
| Logged (line : LogLine)
| Called {X : Type} (c : Call X) (r : Settled X).

(** ** The instance fields *)

Record Store : Type := {
  memory : gmap string string;
  biometricsEnabled : bool;
  encryptionKey : option string;
}.

(** Field initialisers of the class: [new Map()], [false], [null]. *)
Definition new_KeychainSyncedStore : Store :=
  {| memory := ∅; biometricsEnabled := false; encryptionKey := None |}.

Definition set_memory (m : gmap string string) (s : Store) : Store :=
  {| memory := m; biometricsEnabled := biometricsEnabled s;
     encryptionKey := encryptionKey s |}.

Definition set_biometricsEnabled (b : bool) (s : Store) : Store :=
  {| memory := memory s; biometricsEnabled := b;
     encryptionKey := encryptionKey s |}.

Definition set_encryptionKey (k : option string) (s : Store) : Store :=
  {| memory := memory s; biometricsEnabled := biometricsEnabled s;
     encryptionKey := k |}.

(** ** Methods as state-and-exception computations over [Async] *)

Definition M (A : Type) : Type := Store → Async (Store * Settled A).

Definition ret {A} (a : A) : M A := λ s, Ret (s, inr a).
Definition throw {A} (e : Thrown) : M A := λ s, Ret (s, inl e).

Definition bind {A B} (m : M A) (f : A → M B) : M B :=
  λ s, abind (m s) (λ out,
    match snd out with
    | inl e => Ret (fst out, inl e)
    | inr a => f a (fst out)
    end).

(** [try { m } catch (error) { handler error }]. *)
Definition try_catch {A} (m : M A) (handler : Thrown → M A) : M A :=
  λ s, abind (m s) (λ out,
    match snd out with
    | inl e => handler e (fst out)
    | inr a => Ret (fst out, inr a)
    end).

Definition await {X} (c : Call X) : M X := λ s, Await c (λ r, Ret (s, r)).
Definition this : M Store := λ s, Ret (s, inr s).
Definition assign (f : Store → Store) : M unit := λ s, Ret (f s, inr tt).
Definition logger (lv : Level) (msg : string) (err : option Thrown) : M unit :=
  λ s, Log {| level := lv; text := msg; detail := err |} (Ret (s, inr tt)).

(** A synchronous expression that may throw. *)
Definition evaluate {A} (r : Settled A) : M A := λ s, Ret (s, r).

Declare Scope js_scope.
Delimit Scope js_scope with js.
Notation "x <- m ;; k" := (bind m (λ x, k))
  (at level 100, m at next level, right associativity) : js_scope.
Notation "m ;; k" := (bind m (λ _, k))
  (at level 100, right associativity) : js_scope.

(** ** What [JSON] does on the two shapes the class serialises

    [JSON.stringify] and [JSON.parse] are language built-ins.  Following the
    TypeScript types, the model needs them on exactly two shapes: the object
    [Object.fromEntries(this.memory)] and the envelope [{ iv, ciphertext }].
    Parsing may throw. *)
Record JSON : Type := {
  (* [JSON.stringify(Object.fromEntries(m))] *)
  stringify_entries : gmap string string → string;
  (* [new Map(Object.entries(JSON.parse(text)))] *)
  parse_entries : string → Settled (gmap string string);
  (* [JSON.stringify({ iv, ciphertext })] *)
  stringify_envelope : string → string → string;
  (* [const { iv, ciphertext } = JSON.parse(text)] *)
  parse_envelope : string → Settled (string * string);
}.

(** ** The class [KeychainSyncedStore] *)

Section KeychainSyncedStore.
Local Open Scope js_scope.

(** [Platform.OS], the constructor argument and the JSON built-ins. *)
Variable Platform_OS : string.
Variable options : KeychainStorageOptions.
Variable json : JSON.

Definition config : KeychainStorageConfig := createConfig options.

Definition on_web : bool := String.eqb Platform_OS "web".

(** The [authenticationPrompt] literal shared by both keychain helpers. *)
Definition promptOptions : SetOptions :=
  {| service := None; accessible := None; accessControl := None;
     securityLevel := None; storage := None;
     authenticationPrompt := Some
       {| title := or_else (authPrompt options ≫= opt_title)
                     "Authentication Required";
          subtitle := or_else (authPrompt options ≫= opt_subtitle)
                        "Restoring your session";
          cancel := or_else (authPrompt options ≫= opt_cancel) "Cancel" |} |}.

Definition generateKey (salt : string) : M string :=
  key <- await (Aes_randomKey 64);;
  await (Aes_pbkdf2 key salt 5000 256 "sha512").

Definition loadBiometricsPreference : M unit :=
  try_catch
    (value <- await (AsyncStorage_getItem (biometricsPreferenceKey config));;
     assign (set_biometricsEnabled
               (match value with
                | Some v => String.eqb v "true"
                | None => false
                end));;
     self <- this;;
     logger log_
       ("[KeychainStore] Biometrics preference loaded: "
          +:+ String_of_bool (biometricsEnabled self)) None)
    (λ error,
       logger error_ "[KeychainStore] Failed to load biometrics preference:"
         (Some error)).

Definition getEncryptionKeyFromKeychain : M (option string) :=
  self <- this;;
  credentials <- await (Keychain_getGenericPassword
    (spread
       {| service := Some (serviceName config); accessible := None;
          accessControl := None; securityLevel := None; storage := None;
          authenticationPrompt := None |}
       (if biometricsEnabled self
        then spread (keychainOptionsWithBiometrics config) promptOptions
        else keychainOptionsWithoutBiometrics config)));;
  ret (match credentials with
       | UserCredentials _ password => Some password
       | NoCredentials => None
       end).

(** The second parameter defaults to [this.biometricsEnabled]. *)
Definition saveEncryptionKeyToKeychain (key : string)
    (biometrics : option bool) : M unit :=
  self <- this;;
  await (Keychain_setGenericPassword (encryptionKeyUsername config) key
    (if nullish biometrics (biometricsEnabled self)
     then spread (keychainOptionsWithBiometrics config) promptOptions
     else keychainOptionsWithoutBiometrics config)).

Definition encryptData (data key : string) : M string :=
  iv <- await (Aes_randomKey 16);;
  ciphertext <- await (Aes_encrypt data key iv "aes-256-cbc");;
  ret (stringify_envelope json iv ciphertext).

Definition decryptData (encryptedJson : string) : M string :=
  self <- this;;
  if truthy (encryptionKey self) then
    envelope <- evaluate (parse_envelope json encryptedJson);;
    await (Aes_decrypt (snd envelope) (default "" (encryptionKey self))
             (fst envelope) "aes-256-cbc")
  else
    throw (ErrorObject "Decryption failed: Encryption key is not available.").

Definition syncToStorage : M unit :=
  self <- this;;
  if on_web || negb (truthy (encryptionKey self)) then ret tt
  else
    logger log_ "[KeychainStore] Syncing in-memory state to storage..." None;;
    try_catch
      (let data := stringify_entries json (memory self) in
       encryptedData <-
         encryptData data (default "" (encryptionKey self));;
       await (AsyncStorage_setItem (encryptedDataKey config) encryptedData);;
       logger log_ "[KeychainStore] Synced encrypted state to AsyncStorage."
         None)
      (λ error,
         logger error_ "[KeychainStore] Error syncing to AsyncStorage:"
           (Some error)).

Definition isUserCanceled (error : Thrown) : bool :=
  match error with
  | ErrorObject message => includes "User canceled" message
  | NonError _ => false
  end.

Definition initialize : M unit :=
  if on_web then ret tt
  else
    try_catch
      (logger log_ "[KeychainStore] Initializing store..." None;;
       loadBiometricsPreference;;
       found <- getEncryptionKeyFromKeychain;;
       key <- (if truthy found then ret (default "" found)
               else
                 logger log_
                   "[KeychainStore] No encryption key found. Generating a new one."
                   None;;
                 fresh <- generateKey (encryptionSalt config);;
                 saveEncryptionKeyToKeychain fresh None;;
                 ret fresh);;
       assign (set_encryptionKey (Some key));;
       logger log_ "[KeychainStore] Encryption key is ready." None;;
       encryptedData <- await (AsyncStorage_getItem (encryptedDataKey config));;
       if truthy encryptedData then
         decryptedData <- decryptData (default "" encryptedData);;
         entries <- evaluate (parse_entries json decryptedData);;
         assign (set_memory entries);;
         self <- this;;
         logger log_
           ("[KeychainStore] Loaded and decrypted "
              +:+ pretty (size (memory self)) +:+ " items.") None
       else
         logger log_ "[KeychainStore] No data found in storage." None)
      (λ error,
         if isUserCanceled error then
           logger log_
             "[KeychainStore] User canceled biometric prompt during key retrieval."
             None;;
           assign (set_memory ∅);;
           assign (set_encryptionKey None)
         else
           logger error_ "[KeychainStore] Failed to initialize:" (Some error)).

Definition setEnableBiometrics (enabled : bool) : M unit :=
  self <- this;;
  if on_web || bool_decide (encryptionKey self = None) then ret tt
  else
    logger log_
      ("[KeychainStore] Rolling key to set biometrics: "
         +:+ String_of_bool enabled) None;;
    try_catch
      ((if biometricsEnabled self
        then _ <- getEncryptionKeyFromKeychain;; ret tt
        else ret tt);;
       self <- this;;
       let dataToReEncrypt := memory self in
       newKey <- generateKey (encryptionSalt config);;
       encryptedData <-
         encryptData (stringify_entries json dataToReEncrypt) newKey;;
       await (AsyncStorage_setItem (encryptedDataKey config) encryptedData);;
       saveEncryptionKeyToKeychain newKey (Some enabled);;
       assign (set_encryptionKey (Some newKey));;
       assign (set_biometricsEnabled enabled);;
       await (AsyncStorage_setItem (biometricsPreferenceKey config)
                (String_of_bool enabled));;
       logger log_
         "[KeychainStore] Key roll successful. Biometrics preference updated."
         None)
      (λ error,
         logger error_ "[KeychainStore] Failed to roll key for biometrics:"
           (Some error);;
         throw error).

Definition getBiometricsEnabled (self : Store) : bool :=
  biometricsEnabled self.

(** *** The synchronous facade

    [getItem], [setItem] and [removeItem] contain no [await].  They return
    at once with the new fields, the logger calls they made, and the
    promises they started without awaiting them. *)

Record Returned (A : Type) : Type := {
  fields : Store;
  logged : list LogLine;
  started : list (Async unit);
  result : A;
}.
Arguments fields {A} _.
Arguments logged {A} _.
Arguments started {A} _.
Arguments result {A} _.

(** [this.syncToStorage().catch((err) => this.logger.error(text, err))],
    started now and left to run.  [syncToStorage] reads [this.memory] and
    [this.encryptionKey] only before its first [await], so the started
    promise is determined by the fields at the moment of the call. *)
Definition background_sync (self : Store) (text : string) : Async unit :=
  abind (syncToStorage self) (λ out,
    match snd out with
    | inl err =>
        Log {| level := error_; text := text; detail := Some err |} (Ret tt)
    | inr _ => Ret tt
    end).

Definition getItem (key : string) (self : Store) : Returned (option string) :=
  let value := memory self !! key in
  {| fields := self;
     logged :=
       [ {| level := log_;
            text := "[KeychainStore] getItem(" +:+ key +:+ ") => "
                      +:+ (if truthy value then "FOUND" else "NULL");
            detail := None |} ];
     started := [];
     result := value |}.

Definition setItem (key value : string) (self : Store) : Returned unit :=
  let self' := set_memory (<[key := value]> (memory self)) self in
  {| fields := self';
     logged :=
       [ {| level := log_;
            text := "[KeychainStore] setItem(" +:+ key +:+ ")";
            detail := None |} ];
     started :=
       [ background_sync self'
           "[KeychainStore] Background sync to storage failed:" ];
     result := tt |}.

Definition removeItem (key : string) (self : Store) : Returned unit :=
  let line :=
    {| level := log_;
       text := "[KeychainStore] removeItem(" +:+ key +:+ ")";
       detail := None |} in
  if bool_decide (is_Some (memory self !! key)) then
    let self' := set_memory (delete key (memory self)) self in
    {| fields := self';
       logged := [ line ];
       started :=
         [ background_sync self'
             "[KeychainStore] Background sync on remove failed:" ];
       result := tt |}
  else
    {| fields := self; logged := [ line ]; started := []; result := tt |}.

End KeychainSyncedStore.

Arguments fields {A} _.
Arguments logged {A} _.
Arguments started {A} _.
Arguments result {A} _.

(** ** Running a program against the native side *)

Record Run (W A : Type) : Type := {
  world : W;
  trace : list Event;
  value : A;
}.
Arguments world {W A} _.
Arguments trace {W A} _.
Arguments value {W A} _.

(** How the native side answers a call from a given state of the world. *)
Definition Handler (W : Type) : Type := ∀ X, Call X → W → W * Settled X.

Definition observe {W A} (ev : Event) (r : Run W A) : Run W A :=
  {| world := world r; trace := ev :: trace r; value := value r |}.

Section Run.
Context {W : Type} (handle : Handler W).

(** Run to completion. *)
Fixpoint run {A} (p : Async A) (w : W) : Run W A :=
  match p with
  | Ret a => {| world := w; trace := []; value := a |}
  | Log line rest => observe (Logged line) (run rest w)
  | Await c k =>
      let answer := handle _ c w in
      observe (Called c (snd answer)) (run (k (snd answer)) (fst answer))
  end.

(** Run until [n] native calls have settled and stop there, as a process
      killed at that suspension point would. *)
Fixpoint run_upto {A} (n : nat) (p : Async A) (w : W) : Run W (option A) :=
  match p with
  | Ret a => {| world := w; trace := []; value := Some a |}
  | Log line rest => observe (Logged line) (run_upto n rest w)
  | Await c k =>
      match n with
      | O => {| world := w; trace := []; value := None |}
      | S n' =>
          let answer := handle _ c w in
          observe (Called c (snd answer))
            (run_upto n' (k (snd answer)) (fst answer))
      end
  end.
End Run.

(** The fields and the settlement at the end of a method's run. *)
Definition store {W A} (r : Run W (Store * Settled A)) : Store := fst (value r).
Definition settled {W A} (r : Run W (Store * Settled A)) : Settled A :=
  snd (value r).

(** A postcondition that holds however the native side answers. *)
Fixpoint always {A} (p : Async A) (Q : list Event → A → Prop) : Prop :=
  match p with
  | Ret a => Q [] a
  | Log line rest => always rest (λ t, Q (Logged line :: t))
  | Await c k => ∀ r, always (k r) (λ t, Q (Called c r :: t))
  end.

(** ** Reading a trace *)

Definition on_call {T} (ev : Event) (none : T)
    (f : ∀ X, Call X → Settled X → T) : T :=
  match ev with
  | Logged _ => none
  | Called c r => f _ c r
  end.

(** The native call was [AsyncStorage.getItem(name)]. *)
Definition is_getItem (name : string) (ev : Event) : bool :=
  on_call ev false (λ _ c _,
    match c with
    | AsyncStorage_getItem key => String.eqb key name
    | _ => false
    end).

(** The native call was [AsyncStorage.setItem(name, _)]. *)
Definition is_setItem (name : string) (ev : Event) : bool :=
  on_call ev false (λ _ c _,
    match c with
    | AsyncStorage_setItem key _ => String.eqb key name
    | _ => false
    end).

(** The native call was [Keychain.setGenericPassword]. *)
Definition is_setGenericPassword (ev : Event) : bool :=
  on_call ev false (λ _ c _,
    match c with
    | Keychain_setGenericPassword _ _ _ => true
    | _ => false
    end).

(** [Keychain.getGenericPassword] rejected with an error the class treats
    as a cancelled prompt. *)
Definition is_canceled_key_retrieval (ev : Event) : bool :=
  on_call ev false (λ _ c,
    match c in Call X return Settled X → bool with
    | Keychain_getGenericPassword _ => λ r,
        match r with
        | inl err => isUserCanceled err
        | inr _ => false
        end
    | _ => λ _, false
    end).

(** The logger was told [text] at [error] level. *)
Definition is_error_line (msg : string) (ev : Event) : bool :=
  match ev with
  | Logged line =>
      match level line with
      | error_ => String.eqb (text line) msg
      | _ => false
      end
  | Called _ _ => false
  end.

(** ** A device: durable stores that keep what they are given

    AsyncStorage is a string-to-string map.  The keychain keeps, per
    service, the last credentials written together with the options they
    were written under, and hands the password back to whoever asks for
    that service.  [Aes.randomKey] draws from a stream.  Any call can be made
    to reject: [faults] says, call by call, whether the next one does. *)

Record Aes : Type := {
  pbkdf2 : string → string → nat → nat → string → string;
  encrypt : string → string → string → string → string;
  decrypt : string → string → string → string → Settled string;
}.

Record Device : Type := {
  asyncStorage : gmap string string;
  keychain : gmap string (string * string * SetOptions);
  entropy : nat → string;
  drawn : nat;
  faults : list (option Thrown);
}.

Definition next_call (d : Device) : Device :=
  {| asyncStorage := asyncStorage d; keychain := keychain d;
     entropy := entropy d; drawn := drawn d; faults := tail (faults d) |}.

Definition with_asyncStorage (m : gmap string string) (d : Device) : Device :=
  {| asyncStorage := m; keychain := keychain d;
     entropy := entropy d; drawn := drawn d; faults := faults d |}.

Definition with_keychain (m : gmap string (string * string * SetOptions))
    (d : Device) : Device :=
  {| asyncStorage := asyncStorage d; keychain := m;
     entropy := entropy d; drawn := drawn d; faults := faults d |}.

Definition draw (d : Device) : Device :=
  {| asyncStorage := asyncStorage d; keychain := keychain d;
     entropy := entropy d; drawn := S (drawn d); faults := faults d |}.

Definition service_of (opts : SetOptions) : string := default "" (service opts).

Definition answer_device (aes : Aes) {X} (c : Call X) (d : Device)
  : Device * Settled X :=
  match c in Call X return Device * Settled X with
  | AsyncStorage_getItem key => (d, inr (asyncStorage d !! key))
  | AsyncStorage_setItem key v =>
      (with_asyncStorage (<[key := v]> (asyncStorage d)) d, inr tt)
  | Keychain_getGenericPassword opts =>
      (d, inr match keychain d !! service_of opts with
              | Some (username, password, _) => UserCredentials username password
              | None => NoCredentials
              end)
  | Keychain_setGenericPassword username password opts =>
      (with_keychain
         (<[service_of opts := (username, password, opts)]> (keychain d)) d,
       inr tt)
  | Aes_randomKey _ => (draw d, inr (entropy d (drawn d)))
  | Aes_pbkdf2 password salt cost len alg =>
      (d, inr (pbkdf2 aes password salt cost len alg))
  | Aes_encrypt data key iv alg => (d, inr (encrypt aes data key iv alg))
  | Aes_decrypt ciphertext key iv alg => (d, decrypt aes ciphertext key iv alg)
  end.

Definition handle_device (aes : Aes) : Handler Device :=
  λ X c d,
    match faults d with
    | Some err :: _ => (next_call d, inl err)
    | _ => answer_device aes c (next_call d)
    end.

(** What the collaborators promise: the cipher opens what it sealed under
    the same key and vector, derived keys are not empty, and [JSON.parse]
    undoes [JSON.stringify] on the two shapes in use. *)
Record Laws (aes : Aes) (json : JSON) : Prop := {
  decrypt_encrypt : ∀ data key iv alg,
    decrypt aes (encrypt aes data key iv alg) key iv alg = inr data;
  pbkdf2_nonempty : ∀ password salt cost len alg,
    pbkdf2 aes password salt cost len alg ≠ "";
  parse_stringify_entries : ∀ m,
    parse_entries json (stringify_entries json m) = inr m;
  parse_stringify_envelope : ∀ iv ciphertext,
    parse_envelope json (stringify_envelope json iv ciphertext)
    = inr (iv, ciphertext);
  stringify_envelope_nonempty : ∀ iv ciphertext,
    stringify_envelope json iv ciphertext ≠ "";
}.

(** The password the keychain would release for the store's service. *)
Definition stored_key (options : KeychainStorageOptions) (d : Device)
  : option string :=
  match keychain d !! serviceName (createConfig options) with
  | Some (_, password, _) => Some password
  | None => None
  end.

(** The map obtained by opening [blob] with [key]: parse the envelope,
    decrypt, parse the entries. *)
Definition open_blob (aes : Aes) (json : JSON) (key blob : string)
  : option (gmap string string) :=
  match parse_envelope json blob with
  | inr (iv, ciphertext) =>
      match decrypt aes ciphertext key iv "aes-256-cbc" with
      | inr data =>
          match parse_entries json data with
          | inr m => Some m
          | inl _ => None
          end
      | inl _ => None
      end
  | inl _ => None
  end.

(** The persisted blob, if there is one, opens with the key the keychain
    holds. *)
Definition blob_opens_with_stored_key (aes : Aes) (json : JSON)
    (options : KeychainStorageOptions) (d : Device) : bool :=
  match asyncStorage d !! encryptedDataKey (createConfig options) with
  | None => true
  | Some blob =>
      match stored_key options d with
      | Some key => bool_decide (is_Some (open_blob aes json key blob))
      | None => false
      end
  end.

(** ** Sequences of facade mutations *)

Inductive Mutation : Type :=
| set_item (key value : string)
| remove_item (key : string).

(** Apply the mutations in order; collect the promises they start. *)
Fixpoint mutate (Platform_OS : string) (options : KeychainStorageOptions)
    (json : JSON) (ops : list Mutation) (self : Store)
  : Store * list (Async unit) :=
  match ops with
  | [] => (self, [])
  | op :: later =>
      let r := match op with
               | set_item key v => setItem Platform_OS options json key v self
               | remove_item key => removeItem Platform_OS options json key self
               end in
      let rest := mutate Platform_OS options json later (fields r) in
      (fst rest, (started r ++ snd rest)%list)
  end.

(** The class has no state field; its guards test the key handle
    ([this.encryptionKey === null] in [setEnableBiometrics]).  The engine is
    Ready exactly when a key handle is set. *)
Definition Ready (self : Store) : Prop := encryptionKey self ≠ None.

(** ** Stand-in collaborators for running examples

    A cipher and a serialiser small enough to compute with.  The cipher
    tags the plaintext with the key and the vector and rejects any other
    key; the serialiser writes each string character by character behind a
    marker.  They satisfy [Laws] and nothing more is asked of them. *)

Fixpoint strip_prefix (p s : string) : option string :=
  match p with
  | EmptyString => Some s
  | String a p' =>
      match s with
      | String b s' => if Ascii.eqb a b then strip_prefix p' s' else None
      | EmptyString => None
      end
  end.

Definition demo_aes : Aes :=
  {| pbkdf2 := λ password salt _ _ _, "pbkdf2:" +:+ password +:+ ":" +:+ salt;
     encrypt := λ data key iv _, key +:+ "/" +:+ iv +:+ "/" +:+ data;
     decrypt := λ ciphertext key iv _,
       match strip_prefix (key +:+ "/" +:+ iv +:+ "/") ciphertext with
       | Some data => inr data
       | None => inl (ErrorObject "bad decrypt")
       end |}.

Fixpoint quote_onto (s rest : string) : string :=
  match s with
  | EmptyString => String "."%char rest
  | String c s' => String "+"%char (String c (quote_onto s' rest))
  end.

Fixpoint unquote (s : string) : option (string * string) :=
  match s with
  | String m rest =>
      if Ascii.eqb m "."%char then Some (EmptyString, rest)
      else if Ascii.eqb m "+"%char then
        match rest with
        | String c rest' =>
            match unquote rest' with
            | Some (x, r) => Some (String c x, r)
            | None => None
            end
        | EmptyString => None
        end
      else None
  | EmptyString => None
  end.

Fixpoint write_entries (l : list (string * string)) : string :=
  match l with
  | [] => "$"
  | (k, v) :: l' => String "#"%char (quote_onto k (quote_onto v (write_entries l')))
  end.

Fixpoint read_entries (fuel : nat) (s : string)
  : option (list (string * string)) :=
  match fuel with
  | O => None
  | S fuel' =>
      match s with
      | String m rest =>
          if Ascii.eqb m "$"%char then Some []
          else if Ascii.eqb m "#"%char then
            match unquote rest with
            | Some (k, r1) =>
                match unquote r1 with
                | Some (v, r2) =>
                    match read_entries fuel' r2 with
                    | Some l => Some ((k, v) :: l)
                    | None => None
                    end
                | None => None
                end
            | None => None
            end
          else None
      | EmptyString => None
      end
  end.

Definition demo_json : JSON :=
  {| stringify_entries := λ m, write_entries (map_to_list m);
     parse_entries := λ s,
       match read_entries (S (String.length s)) s with
       | Some l => inr (list_to_map l)
       | None => inl (ErrorObject "Unexpected token")
       end;
     stringify_envelope := λ iv ciphertext,
       quote_onto iv (quote_onto ciphertext "");
     parse_envelope := λ s,
       match unquote s with
       | Some (iv, r) =>
           match unquote r with
           | Some (ciphertext, _) => inr (iv, ciphertext)
           | None => inl (ErrorObject "Unexpected end of JSON input")
           end
       | None => inl (ErrorObject "Unexpected token")
       end |}.

Definition demo_options : KeychainStorageOptions :=
  {| authPrompt := None; storagePrefixKey := None; storageVersion := None;
     enableLogging := None |}.

(** A device on which the key [k0] was saved without biometrics and the
    map [{ a: 1 }] was synced under it. *)
Definition demo_store : Store :=
  {| memory := {[ "a" := "1" ]}; biometricsEnabled := false;
     encryptionKey := Some "k0" |}.

Definition demo_entropy (n : nat) : string :=
  "r" +:+ pretty n.

Definition demo_device : Device :=
  {| asyncStorage :=
       {[ encryptedDataKey (createConfig demo_options) :=
            stringify_envelope demo_json "iv0"
              (encrypt demo_aes (stringify_entries demo_json (memory demo_store))
                 "k0" "iv0" "aes-256-cbc") ]};
     keychain :=
       {[ serviceName (createConfig demo_options) :=
            (encryptionKeyUsername (createConfig demo_options), "k0",
             keychainOptionsWithoutBiometrics (createConfig demo_options)) ]};
     entropy := demo_entropy;
     drawn := 0;
     faults := [] |}.

Definition with_faults (plan : list (option Thrown)) (d : Device) : Device :=
  {| asyncStorage := asyncStorage d; keychain := keychain d;
     entropy := entropy d; drawn := drawn d; faults := plan |}.

(** A device whose persisted blob is not an envelope at all. *)
Definition corrupted_device : Device :=
  with_asyncStorage
    {[ encryptedDataKey (createConfig demo_options) := "garbage" ]} demo_device.

(** A device on which the biometric prompt is dismissed: the preference
    read succeeds, the key read rejects. *)
Definition canceling_device : Device :=
  with_faults [None; Some (ErrorObject "User canceled the operation.")]
    demo_device.

(** A device whose seventh native call rejects. *)
Definition failing_at_preference_write : Device :=
  with_faults
    [None; None; None; None; None; None; Some (ErrorObject "disk full")]
    demo_device.

(** A device whose fifth native call rejects. *)
Definition failing_at_blob_write : Device :=
  with_faults [None; None; None; None; Some (ErrorObject "disk full")]
    demo_device.

(** The options [saveEncryptionKeyToKeychain] writes the key under. *)
Definition save_options (options : KeychainStorageOptions) (b : bool)
  : SetOptions :=
  if b
  then spread (keychainOptionsWithBiometrics (config options))
         (promptOptions options)
  else keychainOptionsWithoutBiometrics (config options).

(** The envelope [encryptData] produces from a map, a key and a vector. *)
Definition sealed (aes : Aes) (json : JSON) (m : gmap string string)
    (key iv : string) : string :=
  stringify_envelope json iv
    (encrypt aes (stringify_entries json m) key iv "aes-256-cbc").

(** ** Promises left running

    [setItem] and [removeItem] start [syncToStorage] and return without
    awaiting it (lines 141 and 153), and nothing queues the promises they
    start.  A started promise runs at once up to its first [await]; after
    that it runs again each time the native call it is waiting for settles,
    up to its next [await].  Which of the waiting promises is settled next
    is up to the native side, and the application may call the facade
    again in between. *)

(** Run a program up to its first [await]: the log lines it writes on the
    way and what is left of it. *)
Fixpoint until_await {A} (p : Async A) : list Event * Async A :=
  match p with
  | Log line rest =>
      let r := until_await rest in (Logged line :: fst r, snd r)
  | _ => ([], p)
  end.

(** The instance, the promises it has started so far (each with the fields
    at the moment it was started, and suspended at an [await] or finished),
    the native side, and what the promises did so far, each event with the
    index of its promise. *)
Record Session (W : Type) : Type := {
  instance : Store;
  pending : list (Store * Async unit);
  native : W;
  history : list (nat * Event);
}.
Arguments instance {W} _.
Arguments pending {W} _.
Arguments native {W} _.
Arguments history {W} _.

Inductive Action : Type :=
| calls (m : Mutation)
| settles (i : nat).

Definition tagged (i : nat) (events : list Event) : list (nat * Event) :=
  map (pair i) events.

(** A promise is started from the fields [at_start]. *)
Definition spawn {W} (at_start : Store) (σ : Session W) (task : Async unit)
  : Session W :=
  let r := until_await task in
  {| instance := instance σ;
     pending := pending σ ++ [(at_start, snd r)];
     native := native σ;
     history := history σ ++ tagged (List.length (pending σ)) (fst r) |}.

(** One thing happens: the application calls [setItem] or [removeItem], or
    the native call that promise [i] is waiting for settles and the promise
    runs on to its next [await]. *)
Definition step {W} (handle : Handler W) (Platform_OS : string)
    (options : KeychainStorageOptions) (json : JSON) (a : Action)
    (σ : Session W) : Session W :=
  match a with
  | calls m =>
      let r := match m with
               | set_item key v =>
                   setItem Platform_OS options json key v (instance σ)
               | remove_item key =>
                   removeItem Platform_OS options json key (instance σ)
               end in
      fold_left (spawn (fields r)) (started r)
        {| instance := fields r; pending := pending σ; native := native σ;
           history := history σ |}
  | settles i =>
      match pending σ !! i with
      | Some (at_start, Await c k) =>
          let answer := handle _ c (native σ) in
          let r := until_await (k (snd answer)) in
          {| instance := instance σ;
             pending := <[i := (at_start, snd r)]> (pending σ);
             native := fst answer;
             history :=
               history σ ++ tagged i (Called c (snd answer) :: fst r) |}
      | _ => σ
      end
  end.

Definition play {W} (handle : Handler W) (Platform_OS : string)
    (options : KeychainStorageOptions) (json : JSON) (acts : list Action)
    (σ : Session W) : Session W :=
  fold_left (λ σ a, step handle Platform_OS options json a σ) acts σ.

(** A freshly loaded instance that has started nothing yet. *)
Definition opening {W} (self : Store) (w : W) : Session W :=
  {| instance := self; pending := []; native := w; history := [] |}.

(** [AsyncStorage.setItem(name, _)] resolved. *)
Definition wrote (name : string) (ev : Event) : bool :=
  on_call ev false (λ _ c r,
    match c with
    | AsyncStorage_setItem key _ =>
        String.eqb key name &&
        match r with inr _ => true | inl _ => false end
    | _ => false
    end).

(** The promise whose write of [name] was the last to succeed. *)
Fixpoint last_writer (name : string) (h : list (nat * Event)) : option nat :=
  match h with
  | [] => None
  | (i, ev) :: later =>
      match last_writer name later with
      | Some j => Some j
      | None => if wrote name ev then Some i else None
      end
  end.

(** What a device may answer to a call: a rejection, or what
    [answer_device] says from some state. *)
Definition device_answers (aes : Aes) {X} (c : Call X) (r : Settled X)
  : Prop :=
  (∃ err, r = inl err) ∨ ∃ d, r = snd (answer_device aes c d).

(** Run on a device, the program writes to AsyncStorage only under [name]
    and only values that are [good], makes no further native call once such
    a write has settled, and never writes to the keychain. *)
Fixpoint only_persists (aes : Aes) (name : string) (good : string → Prop)
    {A} (p : Async A) : Prop :=
  match p with
  | Ret _ => True
  | Log _ rest => only_persists aes name good rest
  | Await c k =>
      match c with
      | AsyncStorage_setItem key v =>
          key = name ∧ good v ∧ ∀ r, ∃ a, snd (until_await (k r)) = Ret a
      | Keychain_setGenericPassword _ _ _ => False
      | _ => True
      end ∧
      ∀ r, device_answers aes c r → only_persists aes name good (k r)
  end.

(** What holds of a session on a device between any two steps: the
    instance holds [key]; the keychain is [kc]; every started promise only
    ever persists its own snapshot sealed under [key]; and if some promise
    wrote the blob, the last one that did has run to its end and the blob
    now stored is its snapshot. *)
Definition in_order (aes : Aes) (json : JSON)
    (options : KeychainStorageOptions) (key : string)
    (kc : gmap string (string * string * SetOptions))
    (σ : Session Device) : Prop :=
  encryptionKey (instance σ) = Some key ∧
  keychain (native σ) = kc ∧
  (∀ i at_start p, pending σ !! i = Some (at_start, p) →
     only_persists aes (encryptedDataKey (config options))
       (λ v, ∃ iv, v = sealed aes json (memory at_start) key iv) p) ∧
  (∀ j, last_writer (encryptedDataKey (config options)) (history σ) = Some j →
     ∃ at_start iv,
       pending σ !! j = Some (at_start, Ret tt) ∧
       asyncStorage (native σ) !! encryptedDataKey (config options)
       = Some (sealed aes json (memory at_start) key iv)).

(** ** More ways to read a trace *)

(** The native call was [AsyncStorage.setItem], whatever the name. *)
Definition is_any_setItem (ev : Event) : bool :=
  on_call ev false (λ _ c _,
    match c with
    | AsyncStorage_setItem _ _ => true
    | _ => false
    end).

(** The native call was [Keychain.getGenericPassword]. *)
Definition is_getGenericPassword (ev : Event) : bool :=
  on_call ev false (λ _ c _,
    match c with
    | Keychain_getGenericPassword _ => true
    | _ => false
    end).

(** The native call went to react-native-keychain. *)
Definition is_keychain_call (ev : Event) : bool :=
  is_getGenericPassword ev || is_setGenericPassword ev.

(** The native call was [Aes.randomKey]. *)
Definition is_randomKey (ev : Event) : bool :=
  on_call ev false (λ _ c _,
    match c with
    | Aes_randomKey _ => true
    | _ => false
    end).

(** The native call was [Aes.decrypt]. *)
Definition is_decrypt (ev : Event) : bool :=
  on_call ev false (λ _ c _,
    match c with
    | Aes_decrypt _ _ _ _ => true
    | _ => false
    end).

(** The native call rejected. *)
Definition is_rejected (ev : Event) : bool :=
  on_call ev false (λ _ _ r,
    match r with
    | inl _ => true
    | inr _ => false
    end).

(** The logger was told [msg] at [log] level. *)
Definition is_log_line (msg : string) (ev : Event) : bool :=
  match ev with
  | Logged line =>
      match level line with
      | log_ => String.eqb (text line) msg
      | _ => false
      end
  | Called _ _ => false
  end.

(** Every [AsyncStorage.setItem] of the trace writes the name [name]. *)
Definition writes_only (name : string) (t : list Event) : bool :=
  forallb (λ ev, negb (is_any_setItem ev) || is_setItem name ev) t.

(** How the preference read settles the protection flag:
    [this.biometricsEnabled = value === "true"], or no assignment when the
    read rejected. *)
Definition flag_after (before : bool) (r : Settled (option string)) : bool :=
  match r with
  | inr (Some v) => String.eqb v "true"
  | inr None => false
  | inl _ => before
  end.

(** What [AsyncStorage.getItem(name)] settled with, if this event is that
    call. *)
Definition getItem_answer (name : string) (ev : Event)
  : option (Settled (option string)) :=
  on_call ev None (λ _ c,
    match c in Call X return Settled X → option (Settled (option string)) with
    | AsyncStorage_getItem key => λ r,
        if String.eqb key name then Some r else None
    | _ => λ _, None
    end).

(** What the first [AsyncStorage.getItem(name)] of the trace settled with. *)
Fixpoint fetched (name : string) (t : list Event)
  : option (Settled (option string)) :=
  match t with
  | [] => None
  | ev :: later =>
      match getItem_answer name ev with
      | Some r => Some r
      | None => fetched name later
      end
  end.

(** A native call rejected with an error the class treats as a cancelled
    prompt. *)
Definition is_canceled_rejection (ev : Event) : bool :=
  on_call ev false (λ _ _ r,
    match r with
    | inl err => isUserCanceled err
    | inr _ => false
    end).

(** A native call rejected with exactly [err]. *)
Definition rejected_with (err : Thrown) (ev : Event) : Prop :=
  on_call ev False (λ _ _ r, r = inl err).

(** A device on first launch: nothing persisted, no call fails. *)
Definition blank_device : Device :=
  {| asyncStorage := ∅; keychain := ∅; entropy := demo_entropy; drawn := 0;
     faults := [] |}.

(** * Properties *)

Local Open Scope list_scope.

(** ** Every run is one of the runs [always] quantifies over *)

Lemma always_run {W A} (handle : Handler W) (p : Async A) Q :
  always p Q → ∀ w, Q (trace (run handle p w)) (value (run handle p w)).
Proof.
  revert Q. induction p as [a | line rest IH | X c k IH]; intros Q HQ w; simpl in *.
  - exact HQ.
  - by apply (IH (λ t, Q (Logged line :: t))).
  - by apply (IH _ (λ t, Q (Called c (handle X c w).2 :: t))).
Qed.

(** Unfold the methods down to their [Await]/[Log]/[Ret] skeleton. *)
Ltac expose :=
  cbv beta delta
    [initialize setEnableBiometrics syncToStorage decryptData encryptData
     saveEncryptionKeyToKeychain getEncryptionKeyFromKeychain
     loadBiometricsPreference generateKey background_sync
     bind try_catch await this assign logger evaluate ret throw];
  cbn beta iota zeta delta [abind always fst snd].

(** The test that decides which way the program goes next. *)
Ltac blocker p :=
  lazymatch p with
  | abind ?q _ => blocker q
  | (if ?b then _ else _) _ => b
  | (if ?b then _ else _) => b
  | match ?x with inl _ => _ | inr _ => _ end => x
  | match ?x with inl _ => _ | inr _ => _ end _ => x
  end.

Ltac split_path :=
  lazymatch goal with
  | |- ∀ _ : Settled _, _ => intros [?|?]
  | |- always ?p _ => let b := blocker p in destruct b eqn:?
  end.

(** Enumerate the paths of a method: one goal per way it can end. *)
Ltac paths :=
  lazymatch goal with
  | |- always _ ?Q =>
      let post := fresh "post" in
      set (post := Q); repeat (expose; split_path); expose; subst post;
      cbn beta;
      repeat match goal with u : unit |- _ => destruct u end
  end.

(** Point at an element of a list written out in full. *)
Ltac find_in := repeat first [left; reflexivity | right].

(** ** The configuration's names *)

Lemma versioned_storage_enabled prefix v :
  String.eqb (versioned prefix "storage" v) (versioned prefix "enabled" v) = false.
Proof.
  unfold versioned. induction prefix as [|c prefix IH]; [reflexivity|].
  simpl. by rewrite Ascii.eqb_refl.
Qed.

Lemma data_key_is_not_preference_key options :
  String.eqb (encryptedDataKey (config options))
    (biometricsPreferenceKey (config options)) = false.
Proof. apply versioned_storage_enabled. Qed.

Lemma preference_key_is_not_data_key options :
  String.eqb (biometricsPreferenceKey (config options))
    (encryptedDataKey (config options)) = false.
Proof. rewrite String.eqb_sym. apply data_key_is_not_preference_key. Qed.

Lemma data_key_neq_preference_key options :
  encryptedDataKey (config options) ≠ biometricsPreferenceKey (config options).
Proof. apply String.eqb_neq, data_key_is_not_preference_key. Qed.

Ltac read_trace :=
  cbn [existsb is_getItem is_setItem is_setGenericPassword
       is_canceled_key_retrieval is_error_line on_call orb level text
       String.eqb Ascii.eqb Bool.eqb andb fst snd];
  rewrite ?String.eqb_refl, ?data_key_is_not_preference_key,
    ?preference_key_is_not_data_key;
  cbn [orb].

Lemma setEnableBiometrics_memory os options json enabled s :
  always (setEnableBiometrics os options json enabled s)
    (λ _ out, memory (fst out) = memory s).
Proof. paths; reflexivity. Qed.

Lemma initialize_canceled os options json s :
  always (initialize os options json s) (λ t out,
    existsb is_canceled_key_retrieval t = true →
    memory (fst out) = ∅ ∧ encryptionKey (fst out) = None).
Proof.
  paths. all: read_trace; try done.
  all: rewrite ?orb_false_r; congruence.
Qed.

Lemma initialize_failed os options json s :
  always (initialize os options json s) (λ t out,
    existsb (is_error_line "[KeychainStore] Failed to initialize:") t = true →
    memory (fst out) = memory s ∧
    (existsb (is_getItem (encryptedDataKey (config options))) t = false →
     encryptionKey (fst out) = encryptionKey s) ∧
    (existsb (is_getItem (encryptedDataKey (config options))) t = true →
     Ready (fst out))).
Proof.
  paths. all: read_trace; try done.
Qed.

Lemma setEnableBiometrics_failed os options json enabled s :
  always (setEnableBiometrics os options json enabled s) (λ t out,
    ∀ err, snd out = inl err →
    memory (fst out) = memory s ∧
    (existsb (is_setItem (biometricsPreferenceKey (config options))) t = false →
     encryptionKey (fst out) = encryptionKey s ∧
     biometricsEnabled (fst out) = biometricsEnabled s) ∧
    (existsb (is_setItem (biometricsPreferenceKey (config options))) t = true →
     biometricsEnabled (fst out) = enabled ∧
     ∃ newKey opts,
       encryptionKey (fst out) = Some newKey ∧
       In (Called (Keychain_setGenericPassword
                     (encryptionKeyUsername (config options)) newKey opts)
             (inr tt)) t)).
Proof.
  paths. all: read_trace; intros err Herr; try discriminate.
  all: split; [reflexivity|]; split; intros Hw; try discriminate; try done.
  all: split; [reflexivity|]; eexists _, _; split; [reflexivity|].
  all: cbn [In]; find_in.
Qed.

Lemma setEnableBiometrics_order os options json enabled s :
  always (setEnableBiometrics os options json enabled s) (λ t out,
    on_web os = false → Ready s → snd out = inr tt →
    ∃ before after newKey iv ciphertext opts,
      t = before ++
          [ Called (Aes_encrypt (stringify_entries json (memory s)) newKey iv
                      "aes-256-cbc") (inr ciphertext);
            Called (AsyncStorage_setItem (encryptedDataKey (config options))
                      (stringify_envelope json iv ciphertext)) (inr tt);
            Called (Keychain_setGenericPassword
                      (encryptionKeyUsername (config options)) newKey opts)
              (inr tt) ] ++ after ∧
      existsb is_setGenericPassword before = false ∧
      existsb (is_setItem (encryptedDataKey (config options))) after = false ∧
      encryptionKey (fst out) = Some newKey).
Proof.
  paths. all: intros Hweb Hready Hok; try discriminate.
  - rewrite Hweb in *. cbn [orb] in *.
    match goal with H : bool_decide _ = true |- _ =>
      apply bool_decide_eq_true in H; contradiction end.
  - eexists [_; _; _; _; _], _, _, _, _, _.
    split; [reflexivity|]. by read_trace.
  - eexists [_; _; _; _], _, _, _, _, _.
    split; [reflexivity|]. by read_trace.
Qed.

(** ** The stand-in collaborators keep their promises *)

Lemma strip_prefix_app p s : strip_prefix p (p +:+ s) = Some s.
Proof.
  induction p as [|a p IH]; [reflexivity|].
  change (strip_prefix (String a p) (String a (p +:+ s)) = Some s).
  cbn [strip_prefix]. by rewrite Ascii.eqb_refl.
Qed.

Lemma unquote_quote_onto s rest : unquote (quote_onto s rest) = Some (s, rest).
Proof. induction s as [|c s IH]; [reflexivity|]. simpl. by rewrite IH. Qed.

Lemma read_write_entries l fuel :
  length l < fuel → read_entries fuel (write_entries l) = Some l.
Proof.
  revert fuel. induction l as [|[k v] l IH]; intros [|fuel] Hf; simpl in *;
    try lia; [reflexivity|].
  rewrite !unquote_quote_onto, IH by lia. reflexivity.
Qed.

Lemma length_quote_onto s rest :
  String.length rest < String.length (quote_onto s rest).
Proof. induction s as [|c s IH]; simpl; lia. Qed.

Lemma length_write_entries l : length l < String.length (write_entries l).
Proof.
  induction l as [|[k v] l IH]; simpl; [lia|].
  pose proof (length_quote_onto v (write_entries l)).
  pose proof (length_quote_onto k (quote_onto v (write_entries l))). lia.
Qed.

Lemma string_app_assoc (a b c : string) : (a +:+ b) +:+ c = a +:+ (b +:+ c).
Proof.
  induction a as [|x a IH]; [reflexivity|].
  change (String x ((a +:+ b) +:+ c) = String x (a +:+ b +:+ c)).
  by rewrite IH.
Qed.

Lemma demo_laws : Laws demo_aes demo_json.
Proof.
  split.
  - intros data key iv alg. cbn [decrypt encrypt demo_aes].
    replace (key +:+ "/" +:+ iv +:+ "/" +:+ data)
      with ((key +:+ "/" +:+ iv +:+ "/") +:+ data).
    + by rewrite strip_prefix_app.
    + rewrite !string_app_assoc. reflexivity.
  - intros password salt cost len alg. discriminate.
  - intros m. cbn [parse_entries stringify_entries demo_json].
    rewrite read_write_entries.
    + by rewrite list_to_map_to_list.
    + pose proof (length_write_entries (map_to_list m)). lia.
  - intros iv ciphertext. cbn [parse_envelope stringify_envelope demo_json].
    by rewrite !unquote_quote_onto.
  - intros iv ciphertext. cbn [stringify_envelope demo_json].
    destruct iv; discriminate.
Qed.

(** ** Runs on a device whose calls all succeed *)

Lemma truthy_Some key : key ≠ "" → truthy (Some key) = true.
Proof. intros H. cbn [truthy]. by apply String.eqb_neq in H as ->. Qed.

Lemma service_of_get options (b : bool) :
  service_of
    (spread
       {| service := Some (serviceName (config options)); accessible := None;
          accessControl := None; securityLevel := None; storage := None;
          authenticationPrompt := None |}
       (if b
        then spread (keychainOptionsWithBiometrics (config options))
               (promptOptions options)
        else keychainOptionsWithoutBiometrics (config options)))
  = serviceName (config options).
Proof. by destruct b. Qed.

Lemma service_of_save options b :
  service_of (save_options options b) = serviceName (config options).
Proof. by destruct b. Qed.

Ltac on_device :=
  cbv beta delta
    [initialize setEnableBiometrics syncToStorage decryptData encryptData
     saveEncryptionKeyToKeychain getEncryptionKeyFromKeychain
     loadBiometricsPreference generateKey background_sync
     bind try_catch await this assign logger evaluate ret throw
     store settled];
  cbn beta iota zeta delta
    [abind run observe handle_device answer_device next_call
     with_asyncStorage with_keychain draw
     asyncStorage keychain entropy drawn faults tail
     world trace value fst snd
     memory biometricsEnabled encryptionKey
     set_memory set_biometricsEnabled set_encryptionKey
     new_KeychainSyncedStore nullish default from_option id negb orb].

Lemma initialize_on_device aes json os options d user key opts m iv :
  Laws aes json → on_web os = false → faults d = [] → key ≠ "" →
  keychain d !! serviceName (config options) = Some (user, key, opts) →
  asyncStorage d !! encryptedDataKey (config options)
  = Some (sealed aes json m key iv) →
  let r := run (handle_device aes)
             (initialize os options json new_KeychainSyncedStore) d in
  memory (store r) = m ∧
  encryptionKey (store r) = Some key ∧
  biometricsEnabled (store r)
  = match asyncStorage d !! biometricsPreferenceKey (config options) with
    | Some v => String.eqb v "true"
    | None => false
    end ∧
  In (Called (Aes_decrypt (encrypt aes (stringify_entries json m) key iv
                             "aes-256-cbc") key iv "aes-256-cbc")
        (inr (stringify_entries json m))) (trace r).
Proof.
  intros HL Hweb Hf Hne Hkc Hblob.
  destruct d as [st kc en dr fl]. cbn [faults keychain asyncStorage] in Hf, Hkc, Hblob. subst fl.
  on_device. rewrite Hweb. on_device.
  rewrite service_of_get, Hkc. on_device.
  rewrite truthy_Some by done. on_device.
  rewrite Hblob, truthy_Some by apply (stringify_envelope_nonempty _ _ HL).
  on_device. rewrite truthy_Some by done. on_device.
  unfold sealed. rewrite (parse_stringify_envelope _ _ HL). on_device.
  rewrite (decrypt_encrypt _ _ HL). on_device.
  rewrite (parse_stringify_entries _ _ HL). on_device.
  repeat split. cbn [In]. find_in.
Qed.

Lemma setEnableBiometrics_on_device aes json os options enabled s d :
  on_web os = false → Ready s → faults d = [] →
  let r := run (handle_device aes)
             (setEnableBiometrics os options json enabled s) d in
  let newKey := pbkdf2 aes (entropy d (drawn d))
                  (encryptionSalt (config options)) 5000 256 "sha512" in
  settled r = inr tt ∧
  store r = set_biometricsEnabled enabled (set_encryptionKey (Some newKey) s) ∧
  asyncStorage (world r)
  = <[biometricsPreferenceKey (config options) := String_of_bool enabled]>
      (<[encryptedDataKey (config options) :=
           sealed aes json (memory s) newKey (entropy d (S (drawn d)))]>
         (asyncStorage d)) ∧
  keychain (world r)
  = <[serviceName (config options) :=
        (encryptionKeyUsername (config options), newKey,
         save_options options enabled)]> (keychain d) ∧
  faults (world r) = [].
Proof.
  intros Hweb Hready Hf.
  destruct d as [st kc en dr fl]. cbn [faults] in Hf. subst fl.
  on_device. rewrite Hweb.
  rewrite bool_decide_eq_false_2 by exact Hready. on_device.
  destruct (biometricsEnabled s); on_device.
  all: change (if enabled then ?a else ?b) with (save_options options enabled).
  all: rewrite service_of_save; repeat split.
Qed.

Lemma open_blob_sealed aes json m key iv :
  Laws aes json → open_blob aes json key (sealed aes json m key iv) = Some m.
Proof.
  intros HL. unfold open_blob, sealed.
  by rewrite (parse_stringify_envelope _ _ HL), (decrypt_encrypt _ _ HL),
    (parse_stringify_entries _ _ HL).
Qed.

(** ** Every cut of a rotation *)

Ltac on_cut :=
  cbn beta iota zeta delta
    [abind run run_upto observe handle_device answer_device next_call
     with_asyncStorage with_keychain draw
     asyncStorage keychain entropy drawn faults tail
     world trace value fst snd
     memory biometricsEnabled encryptionKey
     set_memory set_biometricsEnabled set_encryptionKey
     nullish default from_option id negb orb].

Lemma setEnableBiometrics_prefixes aes json os options enabled s d n :
  Laws aes json → on_web os = false → Ready s → faults d = [] →
  blob_opens_with_stored_key aes json options d = true →
  let cut := run_upto (handle_device aes) n
               (setEnableBiometrics os options json enabled s) d in
  existsb (is_setItem (encryptedDataKey (config options))) (trace cut) = false
  ∨ existsb is_setGenericPassword (trace cut) = true →
  blob_opens_with_stored_key aes json options (world cut) = true.
Proof.
  intros HL Hweb Hready Hf H0.
  destruct d as [st kc en dr fl]. cbn [faults] in Hf. subst fl.
  unfold blob_opens_with_stored_key, stored_key in *.
  fold (config options) in *. cbn [asyncStorage keychain] in H0.
  assert (∀ b : bool,
    service_of (if b
                then spread (keychainOptionsWithBiometrics (config options))
                       (promptOptions options)
                else keychainOptionsWithoutBiometrics (config options))
    = serviceName (config options)) as Hsave by (by intros []).
  cbv beta delta
    [setEnableBiometrics encryptData saveEncryptionKeyToKeychain
     getEncryptionKeyFromKeychain generateKey
     bind try_catch await this assign logger evaluate ret throw].
  cbn beta iota zeta delta [abind fst snd].
  rewrite Hweb, bool_decide_eq_false_2 by exact Hready.
  cbn [orb].
  destruct (biometricsEnabled s); do 10 (try destruct n as [|n]); on_cut.
  all: try exact (λ _, H0).
  all: read_trace.
  all: try (intros [H | H]; discriminate H).
  all: intros _; rewrite ?Hsave, ?lookup_insert_eq.
  all: rewrite ?(lookup_insert_ne _ _ _ _ (not_eq_sym (data_key_neq_preference_key options))), ?lookup_insert_eq.
  all: apply bool_decide_eq_true.
  all: pose proof (open_blob_sealed aes json) as Ho; unfold sealed in Ho.
  all: rewrite Ho by done; eauto.
Qed.

(** ** Sessions on a device *)

Lemma last_writer_app name h h' :
  last_writer name (h ++ h')
  = match last_writer name h' with
    | Some j => Some j
    | None => last_writer name h
    end.
Proof.
  induction h as [|[i ev] h IH]; cbn [app last_writer].
  - by destruct (last_writer name h').
  - rewrite IH. by destruct (last_writer name h').
Qed.

Lemma until_await_writes_nothing {A} name i (p : Async A) :
  last_writer name (tagged i (fst (until_await p))) = None.
Proof.
  induction p as [a | line rest IH | X c k _]; cbn; [done| |done].
  unfold tagged in IH. by rewrite IH.
Qed.

Lemma only_persists_until_await {A} aes name good (p : Async A) :
  only_persists aes name good p →
  only_persists aes name good (snd (until_await p)).
Proof. induction p as [a | line rest IH | X c k _]; cbn; auto. Qed.

Lemma background_sync_only_persists aes json os options s key msg :
  on_web os = false → encryptionKey s = Some key → key ≠ "" →
  only_persists aes (encryptedDataKey (config options))
    (λ v, ∃ iv, v = sealed aes json (memory s) key iv)
    (background_sync os options json s msg).
Proof.
  intros Hweb Hk Hne.
  cbv beta delta
    [background_sync syncToStorage encryptData bind try_catch await this
     logger ret].
  cbn beta iota zeta delta [abind fst snd].
  rewrite Hweb, Hk, truthy_Some by done.
  cbn beta iota zeta delta [abind only_persists fst snd orb negb default
                            from_option id].
  split; [done|]. intros r [[err ->] | [d ->]];
    cbn beta iota zeta delta [abind only_persists fst snd answer_device];
    [done|].
  split; [done|]. intros r [[err ->] | [d' ->]];
    cbn beta iota zeta delta [abind only_persists fst snd answer_device];
    [done|].
  split; [split; [done|]; split; [by eexists|];
          intros [?|?]; by eexists|].
  intros r [[err ->] | [d'' ->]];
    cbn beta iota zeta delta [abind only_persists fst snd answer_device];
    done.
Qed.

Lemma handle_device_effect aes {X} (c : Call X) (d : Device) :
  device_answers aes c (snd (handle_device aes X c d)) ∧
  match c in Call X return Settled X → Device → Prop with
  | AsyncStorage_setItem key v => λ r d',
      keychain d' = keychain d ∧
      ((r = inr tt ∧ asyncStorage d' = <[key := v]> (asyncStorage d)) ∨
       ((∃ err, r = inl err) ∧ asyncStorage d' = asyncStorage d))
  | Keychain_setGenericPassword _ _ _ => λ _ _, True
  | _ => λ _ d', keychain d' = keychain d ∧ asyncStorage d' = asyncStorage d
  end (snd (handle_device aes X c d)) (fst (handle_device aes X c d)).
Proof.
  destruct d as [st kc en dr fl]. unfold handle_device.
  destruct fl as [|[err|] fl]; cbn [faults fst snd].
  2: { split; [left; by eexists|]. destruct c; cbn; eauto 10. }
  all: split; [right; by eexists|]; destruct c; cbn; eauto 10.
Qed.

Lemma spawn_in_order aes json os options key kc σ at_start msg :
  on_web os = false → key ≠ "" →
  encryptionKey at_start = Some key →
  in_order aes json options key kc σ →
  in_order aes json options key kc
    (spawn at_start σ (background_sync os options json at_start msg)).
Proof.
  intros Hweb Hne Hk (Hkey & Hkc & Hsafe & Hlast).
  unfold in_order, spawn. cbn [instance pending native history].
  split; [done|]. split; [done|]. split.
  - intros i s0 p Hi. apply lookup_app_Some in Hi as [Hi | [_ Hi]].
    + by apply (Hsafe i).
    + apply list_lookup_singleton_Some in Hi as [_ Hi].
      injection Hi as <- <-.
      by apply only_persists_until_await, background_sync_only_persists.
  - intros j. rewrite last_writer_app, until_await_writes_nothing.
    intros Hj. destruct (Hlast j Hj) as (s0 & iv & Hp & Hblob).
    exists s0, iv. split; [|done]. by apply lookup_app_l_Some.
Qed.

Lemma step_in_order aes json os options key kc a σ :
  on_web os = false → key ≠ "" →
  in_order aes json options key kc σ →
  in_order aes json options key kc
    (step (handle_device aes) os options json a σ).
Proof.
  intros Hweb Hne Hin. destruct a as [m | i]; cbn [step].
  - assert (in_order aes json options key kc
              {| instance := instance σ; pending := pending σ;
                 native := native σ; history := history σ |}) as Hin'
      by (by destruct σ).
    destruct Hin as (Hkey & _).
    destruct m as [k v | k].
    + cbn [setItem fields started fold_left].
      apply spawn_in_order; [done..|].
      destruct Hin' as (_ & ? & ? & ?). by repeat split.
    + unfold removeItem. case_bool_decide;
        cbn [fields started fold_left]; [|done].
      apply spawn_in_order; [done..|].
      destruct Hin' as (_ & ? & ? & ?). by repeat split.
  - destruct (pending σ !! i) as [[s0 p]|] eqn:Hi; [|done].
    destruct p as [a | line rest | X c k]; [done..|].
    destruct Hin as (Hkey & Hkc & Hsafe & Hlast).
    destruct (Hsafe i s0 _ Hi) as [Hcall Hnext].
    destruct (handle_device_effect aes c (native σ)) as [Hans Heff].
    set (answer := handle_device aes X c (native σ)) in *.
    pose proof (lookup_lt_Some _ _ _ Hi) as Hlt.
    unfold in_order. cbn [instance pending native history].
    split; [done|].
    assert (keychain (fst answer) = kc ∧
            ∀ j, last_writer (encryptedDataKey (config options))
                   (history σ ++
                    tagged i (Called c (snd answer)
                              :: fst (until_await (k (snd answer))))) = Some j →
                 ∃ s1 iv,
                   <[i := (s0, snd (until_await (k (snd answer))))]>
                     (pending σ) !! j = Some (s1, Ret tt) ∧
                   asyncStorage (fst answer)
                     !! encryptedDataKey (config options)
                   = Some (sealed aes json (memory s1) key iv)) as [Hkc' Hlast'].
    { assert (∀ j, wrote (encryptedDataKey (config options))
                     (Called c (snd answer)) = false →
                   asyncStorage (fst answer) = asyncStorage (native σ) →
                   last_writer (encryptedDataKey (config options))
                     (history σ ++
                      tagged i (Called c (snd answer)
                                :: fst (until_await (k (snd answer))))) = Some j →
                   ∃ s1 iv,
                     <[i := (s0, snd (until_await (k (snd answer))))]>
                       (pending σ) !! j = Some (s1, Ret tt) ∧
                     asyncStorage (fst answer)
                       !! encryptedDataKey (config options)
                     = Some (sealed aes json (memory s1) key iv)) as Hquiet.
      { intros j Hw Hst. rewrite last_writer_app. cbn [tagged map last_writer].
        fold (tagged i (fst (until_await (k (snd answer))))).
        rewrite until_await_writes_nothing, Hw. intros Hj.
        destruct (Hlast j Hj) as (s1 & iv & Hp & Hblob).
        exists s1, iv. rewrite Hst. split; [|done].
        rewrite list_lookup_insert_ne; [done|]. intros <-. congruence. }
      clearbody answer. revert Hcall Heff Hquiet.
      generalize (snd answer) (fst answer). clear Hans Hnext.
      destruct c; intros r d'; cbn [wrote on_call].
      all: try (intros _ [-> Hst] Hquiet; split; [done|];
                intros j; by apply Hquiet).
      2: { by intros []. }
      intros (-> & [iv ->] & Hend) [-> [[-> Hst] | [[err ->] Hst]]] Hquiet.
      - split; [done|]. intros j. rewrite last_writer_app.
        cbn [tagged map last_writer].
        match goal with |- context [last_writer ?n (map ?f ?l)] =>
          change (last_writer n (map f l)) with (last_writer n (tagged i l)) end.
        rewrite until_await_writes_nothing. cbn [wrote on_call].
        rewrite String.eqb_refl. cbn [andb]. intros Hj. injection Hj as <-.
        destruct (Hend (inr tt)) as [[] ->].
        exists s0, iv. rewrite list_lookup_insert_eq by done.
        split; [done|]. rewrite Hst. apply lookup_insert_eq.
      - split; [done|]. intros j. apply Hquiet; [|done].
        by rewrite andb_false_r. }
    split; [done|]. split; [|done].
    intros j s1 p1 Hj.
    apply list_lookup_insert_Some in Hj as [(<- & Heq & _) | (_ & Hj)].
    + injection Heq as <- <-. apply only_persists_until_await.
      by apply Hnext.
    + by apply (Hsafe j).
Qed.

Lemma play_in_order aes json os options key kc acts : ∀ σ,
  on_web os = false → key ≠ "" →
  in_order aes json options key kc σ →
  in_order aes json options key kc
    (play (handle_device aes) os options json acts σ).
Proof.
  induction acts as [|a acts IH]; intros σ Hweb Hne Hin; [done|].
  cbn [play fold_left]. apply IH; [done..|]. by apply step_in_order.
Qed.

(** The promise started last was started from the map as it still is. *)
Lemma step_last_started {W} (handle : Handler W) os options json a σ :
  (∀ j s0 p, pending σ !! j = Some (s0, p) →
             S j = List.length (pending σ) →
             memory s0 = memory (instance σ)) →
  ∀ j s0 p,
    pending (step handle os options json a σ) !! j = Some (s0, p) →
    S j = List.length (pending (step handle os options json a σ)) →
    memory s0 = memory (instance (step handle os options json a σ)).
Proof.
  intros Hlast. destruct a as [m | i]; cbn [step].
  - assert (∀ r msg j s0 p,
      pending (spawn r {| instance := r; pending := pending σ;
                          native := native σ; history := history σ |}
                 (background_sync os options json r msg)) !! j = Some (s0, p) →
      S j = List.length
              (pending (spawn r {| instance := r; pending := pending σ;
                                   native := native σ; history := history σ |}
                          (background_sync os options json r msg))) →
      memory s0 = memory r) as Hspawn.
    { intros r msg j s0 p. cbn [spawn pending instance].
      rewrite length_app. cbn [List.length]. intros Hj Hlen.
      rewrite lookup_app_r in Hj by lia.
      replace (j - List.length (pending σ)) with 0 in Hj by lia.
      by injection Hj as <- _. }
    destruct m as [k v | k].
    + cbn [setItem fields started fold_left]. intros j s0 p Hj Hlen.
      cbn [spawn instance]. eapply Hspawn; [exact Hj | exact Hlen].
    + unfold removeItem. case_bool_decide; cbn [fields started fold_left].
      * intros j s0 p Hj Hlen.
        cbn [spawn instance]. eapply Hspawn; [exact Hj | exact Hlen].
      * by destruct σ.
  - destruct (pending σ !! i) as [[s1 p1]|] eqn:Hi; [|done].
    destruct p1 as [a | line rest | X c k]; [done..|].
    cbn [pending instance]. intros j s0 p Hj. rewrite length_insert.
    apply list_lookup_insert_Some in Hj as [(<- & Heq & _) | (_ & Hj)].
    + injection Heq as <- _. by apply (Hlast i s1 _ Hi).
    + by apply (Hlast j s0 p Hj).
Qed.

Lemma play_last_started {W} (handle : Handler W) os options json acts : ∀ σ,
  (∀ j s0 p, pending σ !! j = Some (s0, p) →
             S j = List.length (pending σ) →
             memory s0 = memory (instance σ)) →
  ∀ j s0 p,
    pending (play handle os options json acts σ) !! j = Some (s0, p) →
    S j = List.length (pending (play handle os options json acts σ)) →
    memory s0 = memory (instance (play handle os options json acts σ)).
Proof.
  induction acts as [|a acts IH]; intros σ Hlast; [done|].
  cbn [play fold_left]. apply IH. by apply step_last_started.
Qed.

(** * The claims *)

(** ** C1: a cancelled prompt leaves the store empty and without a key

    C1.  If the key retrieval inside [initialize] rejects with an error the
    class recognises as a cancelled prompt (an [Error] whose message
    includes "User canceled"), then when [initialize] returns the in-memory
    map is empty, so [getItem] returns [null] for every key, also for the
    keys cached before the call; the key handle is [null]; and the engine
    is not Ready.  This holds for every store the call starts from and
    however the native side answers the other calls. *)
Theorem initialize_canceled_key_retrieval_fails_empty
    {W} (handle : Handler W) os options json (s : Store) (w : W) :
  let r := run handle (initialize os options json s) w in
  existsb is_canceled_key_retrieval (trace r) = true →
  memory (store r) = ∅ ∧
  (∀ key, result (getItem key (store r)) = None) ∧
  encryptionKey (store r) = None ∧
  ¬ Ready (store r).
Proof.
  intros r Hc.
  destruct (always_run handle _ _ (initialize_canceled os options json s) w Hc)
    as [Hm Hk].
  subst r. unfold store, Ready.
  split; [exact Hm|]. split; [|split; [exact Hk|]].
  - intros key. cbn [getItem result]. rewrite Hm. apply lookup_empty.
  - rewrite Hk. by intros H.
Qed.

Lemma initialize_canceled_key_retrieval_fails_empty_witness :
  existsb is_canceled_key_retrieval
    (trace (run (handle_device demo_aes)
              (initialize "ios" demo_options demo_json demo_store)
              canceling_device)) = true ∧
  result (getItem "a"
            (store (run (handle_device demo_aes)
                      (initialize "ios" demo_options demo_json demo_store)
                      canceling_device))) = None.
Proof.
  split; [vm_compute; reflexivity|].
  apply (initialize_canceled_key_retrieval_fails_empty
           (handle_device demo_aes) "ios" demo_options demo_json demo_store
           canceling_device).
  vm_compute; reflexivity.
Defined.

(** ** C10: rotation never touches the map

    C10.  Every execution of [setEnableBiometrics], whether it succeeds or
    fails at any step, leaves the in-memory map as it was: rotation reads
    the entries to re-encrypt them and never adds, removes or changes
    one. *)
Theorem setEnableBiometrics_keeps_memory
    {W} (handle : Handler W) os options json enabled (s : Store) (w : W) :
  memory (store (run handle (setEnableBiometrics os options json enabled s) w))
  = memory s.
Proof.
  exact (always_run handle _ _
           (setEnableBiometrics_memory os options json enabled s) w).
Qed.

(** ** C8: rotation is a no-op on web and without a key

    C8.  When the platform is web or the engine is not Ready (no key
    handle), [setEnableBiometrics] resolves without error, makes no native
    call and logs nothing: the map, the key handle and the protection flag
    are unchanged, and so is the world, hence the persisted key, blob and
    preference. *)
Theorem setEnableBiometrics_noop_unless_ready_native
    {W} (handle : Handler W) os options json enabled (s : Store) (w : W) :
  os = "web" ∨ ¬ Ready s →
  run handle (setEnableBiometrics os options json enabled s) w
  = {| world := w; trace := []; value := (s, inr tt) |}.
Proof.
  intros Hguard.
  assert (on_web os || bool_decide (encryptionKey s = None) = true) as Hg.
  { destruct Hguard as [-> | Hnr]; [reflexivity|].
    apply orb_true_iff. right. apply bool_decide_eq_true.
    unfold Ready in Hnr. by destruct (encryptionKey s); [destruct Hnr|]. }
  expose. rewrite Hg. reflexivity.
Qed.

Lemma setEnableBiometrics_noop_unless_ready_native_witness :
  ¬ Ready new_KeychainSyncedStore ∧
  run (handle_device demo_aes)
    (setEnableBiometrics "ios" demo_options demo_json true
       new_KeychainSyncedStore) demo_device
  = {| world := demo_device; trace := [];
       value := (new_KeychainSyncedStore, inr tt) |}.
Proof.
  assert (¬ Ready new_KeychainSyncedStore) as Hnr by (intros H; by apply H).
  split; [exact Hnr|].
  apply (setEnableBiometrics_noop_unless_ready_native
           (handle_device demo_aes) "ios" demo_options demo_json true
           new_KeychainSyncedStore demo_device).
  right. exact Hnr.
Defined.

(** ** C9: decrypting without a key fails closed

    C9.  Whenever [decryptData] is invoked while no encryption key is
    active, it rejects with the key-unavailable error whatever the encrypted
    input is; it makes no native call, so the cipher is never asked to
    decrypt and no plaintext is returned. *)
Theorem decryptData_without_key_throws
    {W} (handle : Handler W) json encryptedJson (s : Store) (w : W) :
  encryptionKey s = None →
  run handle (decryptData json encryptedJson s) w
  = {| world := w; trace := [];
       value := (s, inl (ErrorObject
                  "Decryption failed: Encryption key is not available.")) |}.
Proof. intros Hk. expose. rewrite Hk. reflexivity. Qed.

Lemma decryptData_without_key_throws_witness :
  encryptionKey new_KeychainSyncedStore = None ∧
  settled (run (handle_device demo_aes)
             (decryptData demo_json
                (sealed demo_aes demo_json (memory demo_store) "k0" "iv0")
                new_KeychainSyncedStore) demo_device)
  = inl (ErrorObject "Decryption failed: Encryption key is not available.").
Proof.
  split; [reflexivity|].
  rewrite (decryptData_without_key_throws (handle_device demo_aes) demo_json
             (sealed demo_aes demo_json (memory demo_store) "k0" "iv0")
             new_KeychainSyncedStore demo_device eq_refl).
  reflexivity.
Defined.

(** ** C7: [removeItem] starts a sync only when it removed something

    C7 (as stated, refuted).  Removing a key that is not in the map starts
    no background sync: the call to [syncToStorage] sits inside
    [if (this.memory.has(key))]. *)
Lemma removeItem_absent_key_starts_no_sync :
  memory demo_store !! "missing" = None ∧
  started (removeItem "ios" demo_options demo_json "missing" demo_store) = [] ∧
  fields (removeItem "ios" demo_options demo_json "missing" demo_store)
  = demo_store.
Proof. vm_compute. done. Qed.

(** C7 (amended).  After every call to [removeItem] the map does not
    contain the key.  When the key was in the map, the entry is deleted and
    exactly one background sync is started, from the fields as they are
    after the deletion; when it was not, the fields are unchanged and no
    sync is started. *)
Theorem removeItem_syncs_only_when_key_present
    os options json key (s : Store) :
  let r := removeItem os options json key s in
  memory (fields r) !! key = None ∧
  (is_Some (memory s !! key) →
   fields r = set_memory (delete key (memory s)) s ∧
   started r = [ background_sync os options json (fields r)
                   "[KeychainStore] Background sync on remove failed:" ]) ∧
  (memory s !! key = None → fields r = s ∧ started r = []).
Proof.
  unfold removeItem. case_bool_decide as Hin; cbn [fields started memory set_memory].
  - split; [apply lookup_delete_eq|]. split; [done|].
    intros Hnone. rewrite Hnone in Hin. by destruct Hin.
  - apply eq_None_not_Some in Hin. split; [done|]. split; [|done].
    intros [v Hv]. congruence.
Qed.

Lemma removeItem_syncs_only_when_key_present_witness :
  is_Some (memory demo_store !! "a") ∧
  started (removeItem "ios" demo_options demo_json "a" demo_store)
  = [ background_sync "ios" demo_options demo_json
        (fields (removeItem "ios" demo_options demo_json "a" demo_store))
        "[KeychainStore] Background sync on remove failed:" ].
Proof.
  assert (is_Some (memory demo_store !! "a")) as Hin by (vm_compute; eauto).
  split; [exact Hin|].
  exact (proj2 (proj1 (proj2
    (removeItem_syncs_only_when_key_present "ios" demo_options demo_json "a"
       demo_store)) Hin)).
Defined.

(** ** C6: what a failed [initialize] leaves behind

    C6 (as stated, refuted).  With the key in the keychain and a persisted
    blob that does not parse, [initialize] fails for a reason other than a
    cancelled prompt, and the key handle is set when it returns: the
    assignment [this.encryptionKey = key] comes before the blob is fetched,
    and the [else] branch of the handler only logs. *)
Lemma initialize_failure_after_key_leaves_key_set :
  let r := run (handle_device demo_aes)
             (initialize "ios" demo_options demo_json new_KeychainSyncedStore)
             corrupted_device in
  existsb (is_error_line "[KeychainStore] Failed to initialize:") (trace r)
  = true ∧
  existsb is_canceled_key_retrieval (trace r) = false ∧
  encryptionKey (store r) = Some "k0" ∧
  Ready (store r).
Proof. vm_compute. by repeat split. Qed.

(** C6 (amended).  After an [initialize] that fails for a reason other than
    a cancelled prompt (the handler logs "Failed to initialize:"), the
    in-memory map is what it was before the call.  If the failure came
    before the persisted blob was fetched, that is while the key was read,
    generated or saved, the key handle is what it was before the call, so
    an engine that was not Ready is still not Ready.  If it came at or after
    the fetch of the blob, the key handle is already set and the engine is
    Ready. *)
Theorem initialize_failure_keeps_memory_and_key_state
    {W} (handle : Handler W) os options json (s : Store) (w : W) :
  let r := run handle (initialize os options json s) w in
  existsb (is_error_line "[KeychainStore] Failed to initialize:") (trace r)
  = true →
  memory (store r) = memory s ∧
  (existsb (is_getItem (encryptedDataKey (config options))) (trace r) = false →
   encryptionKey (store r) = encryptionKey s) ∧
  (existsb (is_getItem (encryptedDataKey (config options))) (trace r) = true →
   Ready (store r)).
Proof.
  intros r.
  exact (always_run handle _ _ (initialize_failed os options json s) w).
Qed.

Lemma initialize_failure_keeps_memory_and_key_state_witness :
  let r := run (handle_device demo_aes)
             (initialize "ios" demo_options demo_json new_KeychainSyncedStore)
             (with_faults [None; Some (ErrorObject "keystore unavailable")]
                demo_device) in
  existsb (is_error_line "[KeychainStore] Failed to initialize:") (trace r)
  = true ∧
  existsb (is_getItem (encryptedDataKey (config demo_options))) (trace r)
  = false ∧
  encryptionKey (store r) = None.
Proof.
  intros r.
  assert (existsb (is_error_line "[KeychainStore] Failed to initialize:")
            (trace r) = true) as Hfail by (vm_compute; reflexivity).
  assert (existsb (is_getItem (encryptedDataKey (config demo_options)))
            (trace r) = false) as Hearly by (vm_compute; reflexivity).
  split; [exact Hfail|]. split; [exact Hearly|].
  exact (proj1 (proj2
    (initialize_failure_keeps_memory_and_key_state (handle_device demo_aes)
       "ios" demo_options demo_json new_KeychainSyncedStore
       (with_faults [None; Some (ErrorObject "keystore unavailable")]
          demo_device) Hfail)) Hearly).
Defined.

(** ** C2: what a failed rotation leaves in the fields

    C2 (as stated, refuted).  When the last step, the write of the
    preference flag, rejects, [setEnableBiometrics] throws to its caller
    after [this.encryptionKey] and [this.biometricsEnabled] were assigned:
    the key handle and the flag are the new ones. *)
Lemma setEnableBiometrics_failure_after_commit_changes_key :
  let r := run (handle_device demo_aes)
             (setEnableBiometrics "ios" demo_options demo_json true demo_store)
             failing_at_preference_write in
  settled r = inl (ErrorObject "disk full") ∧
  encryptionKey (store r) ≠ encryptionKey demo_store ∧
  biometricsEnabled (store r) ≠ biometricsEnabled demo_store.
Proof. vm_compute. by repeat split. Qed.

(** C2 (amended).  For every call to [setEnableBiometrics] that throws to
    its caller, the in-memory map equals its value before the attempt.  If
    the failing step comes before the write of the preference flag (key
    re-read, key generation, vector generation, encryption, blob write, key
    save), the key handle and the protection flag also equal their values
    before the attempt.  If the failing step is the write of the preference
    flag, the key handle is the new key, the one just saved to the
    keychain, and the protection flag is the requested one. *)
Theorem setEnableBiometrics_failure_state
    {W} (handle : Handler W) os options json enabled (s : Store) (w : W) :
  let r := run handle (setEnableBiometrics os options json enabled s) w in
  ∀ err, settled r = inl err →
  memory (store r) = memory s ∧
  (existsb (is_setItem (biometricsPreferenceKey (config options))) (trace r)
   = false →
   encryptionKey (store r) = encryptionKey s ∧
   biometricsEnabled (store r) = biometricsEnabled s) ∧
  (existsb (is_setItem (biometricsPreferenceKey (config options))) (trace r)
   = true →
   biometricsEnabled (store r) = enabled ∧
   ∃ newKey opts,
     encryptionKey (store r) = Some newKey ∧
     In (Called (Keychain_setGenericPassword
                   (encryptionKeyUsername (config options)) newKey opts)
           (inr tt)) (trace r)).
Proof.
  intros r.
  exact (always_run handle _ _
           (setEnableBiometrics_failed os options json enabled s) w).
Qed.

Lemma setEnableBiometrics_failure_state_witness :
  let r := run (handle_device demo_aes)
             (setEnableBiometrics "ios" demo_options demo_json true demo_store)
             failing_at_blob_write in
  settled r = inl (ErrorObject "disk full") ∧
  memory (store r) = memory demo_store ∧
  encryptionKey (store r) = encryptionKey demo_store ∧
  biometricsEnabled (store r) = biometricsEnabled demo_store.
Proof.
  intros r.
  assert (settled r = inl (ErrorObject "disk full")) as Hfail
    by (vm_compute; reflexivity).
  assert (existsb (is_setItem (biometricsPreferenceKey (config demo_options)))
            (trace r) = false) as Hearly by (vm_compute; reflexivity).
  destruct (setEnableBiometrics_failure_state (handle_device demo_aes) "ios"
              demo_options demo_json true demo_store failing_at_blob_write
              _ Hfail) as (Hm & Hbefore & _).
  destruct (Hbefore Hearly) as [Hk Hb].
  split; [exact Hfail|]. split; [exact Hm|]. split; [exact Hk | exact Hb].
Defined.

(** ** C3: the order of the two durable writes of a rotation

    C3 (as stated, refuted).  A rotation that runs to success on a device
    where the persisted blob opens with the stored key passes through a
    state, right after its fifth native call (the blob write), in which the
    persisted blob is sealed under the new key while the keychain still
    holds the old one: the blob does not open with the stored key. *)
Lemma rotation_cut_after_blob_write_has_no_key_for_blob :
  let p := setEnableBiometrics "ios" demo_options demo_json true demo_store in
  let cut := run_upto (handle_device demo_aes) 5 p demo_device in
  settled (run (handle_device demo_aes) p demo_device) = inr tt ∧
  blob_opens_with_stored_key demo_aes demo_json demo_options demo_device
  = true ∧
  value cut = None ∧
  stored_key demo_options (world cut) = Some "k0" ∧
  blob_opens_with_stored_key demo_aes demo_json demo_options (world cut)
  = false.
Proof. vm_compute. by repeat split. Qed.

(** C3 (amended).  In every successful execution of [setEnableBiometrics]
    on a Ready engine off web, the snapshot of the map is encrypted under
    the new key, the resulting envelope is written to the blob store, and
    only then the new key is stored into the keychain, these three native
    calls following one another; no keychain write comes before them and no
    blob write after them, and the key handle ends up being that new key.
    Moreover, on a device whose calls succeed and on which the persisted
    blob opened with the stored key before the rotation, the persisted blob
    opens with the key the keychain holds after every prefix of the step
    sequence that ends before the blob write or after the key save.
    Nothing is claimed for the one prefix that ends between the blob write
    and the key save. *)
Theorem setEnableBiometrics_writes_blob_before_key
    os options json enabled (s : Store) :
  on_web os = false → Ready s →
  (∀ W (handle : Handler W) (w : W),
     let r := run handle (setEnableBiometrics os options json enabled s) w in
     settled r = inr tt →
     ∃ before after newKey iv ciphertext opts,
       trace r
       = before ++
         [ Called (Aes_encrypt (stringify_entries json (memory s)) newKey iv
                     "aes-256-cbc") (inr ciphertext);
           Called (AsyncStorage_setItem (encryptedDataKey (config options))
                     (stringify_envelope json iv ciphertext)) (inr tt);
           Called (Keychain_setGenericPassword
                     (encryptionKeyUsername (config options)) newKey opts)
             (inr tt) ] ++ after ∧
       existsb is_setGenericPassword before = false ∧
       existsb (is_setItem (encryptedDataKey (config options))) after = false ∧
       encryptionKey (store r) = Some newKey) ∧
  (∀ aes (d : Device) n,
     Laws aes json → faults d = [] →
     blob_opens_with_stored_key aes json options d = true →
     let cut := run_upto (handle_device aes) n
                  (setEnableBiometrics os options json enabled s) d in
     existsb (is_setItem (encryptedDataKey (config options))) (trace cut)
     = false
     ∨ existsb is_setGenericPassword (trace cut) = true →
     blob_opens_with_stored_key aes json options (world cut) = true).
Proof.
  intros Hweb Hready. split.
  - intros W handle w r.
    exact (always_run handle _ _
             (setEnableBiometrics_order os options json enabled s) w
             Hweb Hready).
  - intros aes d n HL Hf H0.
    by apply setEnableBiometrics_prefixes.
Qed.

Lemma setEnableBiometrics_writes_blob_before_key_witness :
  let p := setEnableBiometrics "ios" demo_options demo_json true demo_store in
  let cut := run_upto (handle_device demo_aes) 6 p demo_device in
  settled (run (handle_device demo_aes) p demo_device) = inr tt ∧
  existsb is_setGenericPassword (trace cut) = true ∧
  stored_key demo_options (world cut) ≠ stored_key demo_options demo_device ∧
  blob_opens_with_stored_key demo_aes demo_json demo_options (world cut)
  = true.
Proof.
  intros p cut.
  assert (existsb is_setGenericPassword (trace cut) = true) as Hsaved
    by (vm_compute; reflexivity).
  split; [vm_compute; reflexivity|]. split; [exact Hsaved|].
  split; [vm_compute; intros H; discriminate H|].
  refine (proj2 (setEnableBiometrics_writes_blob_before_key "ios"
                   demo_options demo_json true demo_store eq_refl _)
            demo_aes demo_device 6 demo_laws eq_refl _ (or_intror Hsaved)).
  - intros H. discriminate H.
  - vm_compute. reflexivity.
Defined.

(** ** C4: rotation followed by a fresh load gives the map back

    C4.  On a Ready engine and a device whose calls succeed, with
    collaborators that keep their promises, [setEnableBiometrics] succeeds,
    and a fresh instance initialised against the device it leaves behind
    loads a map equal to the map before the rotation (whether or not that
    map is empty).  The fresh instance holds the newly generated key, the
    one derived during the rotation and now in the keychain, it decrypts
    the blob under that key, and it reads back the requested protection
    flag. *)
Theorem rotation_then_reload_restores_memory
    aes json os options enabled (s : Store) (d : Device) :
  Laws aes json → on_web os = false → Ready s → faults d = [] →
  let r := run (handle_device aes)
             (setEnableBiometrics os options json enabled s) d in
  let r' := run (handle_device aes)
              (initialize os options json new_KeychainSyncedStore)
              (world r) in
  let newKey := pbkdf2 aes (entropy d (drawn d))
                  (encryptionSalt (config options)) 5000 256 "sha512" in
  settled r = inr tt ∧
  memory (store r') = memory s ∧
  encryptionKey (store r) = Some newKey ∧
  stored_key options (world r) = Some newKey ∧
  encryptionKey (store r') = Some newKey ∧
  biometricsEnabled (store r') = enabled ∧
  ∃ iv, In (Called (Aes_decrypt
                      (encrypt aes (stringify_entries json (memory s)) newKey
                         iv "aes-256-cbc") newKey iv "aes-256-cbc")
              (inr (stringify_entries json (memory s)))) (trace r').
Proof.
  intros HL Hweb Hready Hf r r' newKey.
  destruct (setEnableBiometrics_on_device aes json os options enabled s d
              Hweb Hready Hf) as (Hok & Hs & Hst & Hkc & Hf').
  fold r newKey in Hok, Hs, Hst, Hkc, Hf'.
  assert (keychain (world r) !! serviceName (config options)
          = Some (encryptionKeyUsername (config options), newKey,
                  save_options options enabled)) as Hkey
    by (rewrite Hkc; apply lookup_insert_eq).
  assert (asyncStorage (world r) !! encryptedDataKey (config options)
          = Some (sealed aes json (memory s) newKey (entropy d (S (drawn d)))))
    as Hblob.
  { rewrite Hst, lookup_insert_ne, lookup_insert_eq; [done|].
    intros Heq. by apply (data_key_neq_preference_key options). }
  destruct (initialize_on_device aes json os options (world r) _ newKey _ _ _
              HL Hweb Hf' (pbkdf2_nonempty _ _ HL _ _ _ _ _) Hkey Hblob)
    as (Hm & Hk' & Hb & Hdec).
  fold r' in Hm, Hk', Hb, Hdec.
  split; [exact Hok|]. split; [exact Hm|].
  split; [by rewrite Hs|].
  split; [unfold stored_key; fold (config options); by rewrite Hkey|].
  split; [exact Hk'|]. split; [|by eexists].
  rewrite Hb, Hst, lookup_insert_eq. by destruct enabled.
Qed.

Lemma rotation_then_reload_restores_memory_witness :
  let r := run (handle_device demo_aes)
             (setEnableBiometrics "ios" demo_options demo_json true demo_store)
             demo_device in
  memory (store (run (handle_device demo_aes)
                   (initialize "ios" demo_options demo_json
                      new_KeychainSyncedStore) (world r)))
  = memory demo_store.
Proof.
  intros r.
  refine (proj1 (proj2
    (rotation_then_reload_restores_memory demo_aes demo_json "ios"
       demo_options true demo_store demo_device demo_laws eq_refl _ eq_refl))).
  intros H. discriminate H.
Defined.

(** ** C5: what the last completed sync wrote is what a fresh load reads

    C5.  Take a Ready engine whose non-empty key is the one in the
    keychain, a device on which any call may reject, and collaborators that
    keep their promises.  Let the application make any sequence of
    [setItem]/[removeItem] calls while the background syncs they start
    advance in any interleaving, each native call settling whenever the
    native side chooses.  If some sync's blob write succeeded, then the last
    sync whose write succeeded has run to its end, and a fresh instance
    initialised against the same durable stores (with no call failing) loads
    a map equal to the in-memory map at the moment that sync was started,
    the map it serialised.  If that sync is the one started last, this is
    the in-memory map as it is now. *)
Theorem sync_then_reload_restores_memory
    aes json os options acts (s : Store) (d : Device) user key opts :
  Laws aes json → on_web os = false →
  encryptionKey s = Some key → key ≠ "" →
  keychain d !! serviceName (config options) = Some (user, key, opts) →
  let σ := play (handle_device aes) os options json acts (opening s d) in
  ∀ j,
    last_writer (encryptedDataKey (config options)) (history σ) = Some j →
    ∃ at_start,
      pending σ !! j = Some (at_start, Ret tt) ∧
      memory (store (run (handle_device aes)
                       (initialize os options json new_KeychainSyncedStore)
                       (with_faults [] (native σ))))
      = memory at_start ∧
      (S j = List.length (pending σ) → memory at_start = memory (instance σ)).
Proof.
  intros HL Hweb Hk Hne Hkc σ j Hj.
  assert (in_order aes json options key (keychain d) (opening s d)) as Hin.
  { unfold in_order, opening. cbn [instance pending native history].
    split; [done|]. split; [done|]. split; [by intros i ? ? ?|].
    intros j' Hj'. discriminate Hj'. }
  apply (play_in_order aes json os options key _ acts _ Hweb Hne) in Hin.
  fold σ in Hin. destruct Hin as (_ & Hkc' & _ & Hlast).
  destruct (Hlast j Hj) as (s0 & iv & Hp & Hblob).
  exists s0. split; [done|]. split.
  - apply (initialize_on_device aes json os options
             (with_faults [] (native σ)) user key opts (memory s0) iv);
      try done.
    cbn [with_faults keychain]. by rewrite Hkc'.
  - intros Hlen.
    refine (play_last_started (handle_device aes) os options json acts
              (opening s d) _ j s0 (Ret tt) Hp Hlen).
    intros j' s' p' H. discriminate H.
Qed.

Lemma sync_then_reload_restores_memory_witness :
  let acts := [ calls (set_item "session" "A"); calls (set_item "session" "B");
                settles 1; settles 1; settles 1;
                settles 0; settles 0; settles 0 ] in
  let σ := play (handle_device demo_aes) "ios" demo_options demo_json acts
             (opening demo_store demo_device) in
  memory (instance σ) = {[ "a" := "1"; "session" := "B" ]} ∧
  last_writer (encryptedDataKey (config demo_options)) (history σ) = Some 0 ∧
  ∃ at_start,
    pending σ !! 0 = Some (at_start, Ret tt) ∧
    memory at_start = {[ "a" := "1"; "session" := "A" ]} ∧
    memory (store (run (handle_device demo_aes)
                     (initialize "ios" demo_options demo_json
                        new_KeychainSyncedStore)
                     (with_faults [] (native σ))))
    = memory at_start.
Proof.
  intros acts σ.
  assert (last_writer (encryptedDataKey (config demo_options)) (history σ)
          = Some 0) as Hlast by (vm_compute; reflexivity).
  split; [vm_compute; reflexivity|]. split; [exact Hlast|].
  assert ("k0" ≠ "") as Hne by (intros H; discriminate H).
  destruct (sync_then_reload_restores_memory demo_aes demo_json "ios"
              demo_options acts demo_store demo_device
              (encryptionKeyUsername (config demo_options)) "k0"
              (keychainOptionsWithoutBiometrics (config demo_options))
              demo_laws eq_refl eq_refl Hne eq_refl 0 Hlast)
    as (at_start & Hp & Hm & _).
  exists at_start. split; [exact Hp|]. split; [|exact Hm].
  revert Hp. vm_compute. intros Hp. injection Hp as <-. reflexivity.
Defined.

(** * Further properties of the code *)

(** ** Names derived by [createConfig] *)

Lemma append_cancel_l (p x y : string) : p +:+ x = p +:+ y → x = y.
Proof.
  induction p as [|c p IH]; [done|].
  change (String c (p +:+ x) = String c (p +:+ y) → x = y).
  intros H. injection H as H. by apply IH.
Qed.

Lemma versioned_same_kind prefix a b v :
  versioned prefix a v = versioned prefix b v →
  a +:+ ".v" +:+ Number_toString v = b +:+ ".v" +:+ Number_toString v.
Proof.
  unfold versioned. intros H. apply append_cancel_l in H.
  change (String "." (a +:+ ".v" +:+ Number_toString v)
          = String "." (b +:+ ".v" +:+ Number_toString v)) in H.
  by injection H.
Qed.

Ltac kinds_differ :=
  let H := fresh in
  intros H; apply versioned_same_kind in H;
  cbv beta iota delta [String.append] in H; discriminate H.

(** X1.  The five names [createConfig] derives (keychain service, keychain
    username, preference key, blob key, salt) are pairwise different, for
    every prefix and version: no two of the store's persisted values can
    land under the same name. *)
Theorem createConfig_names_distinct options :
  NoDup [ serviceName (createConfig options);
          encryptionKeyUsername (createConfig options);
          biometricsPreferenceKey (createConfig options);
          encryptedDataKey (createConfig options);
          encryptionSalt (createConfig options) ].
Proof.
  cbn [createConfig serviceName encryptionKeyUsername biometricsPreferenceKey
       encryptedDataKey encryptionSalt].
  repeat (apply NoDup_cons; split;
          [rewrite ?not_elem_of_cons; repeat split;
           [kinds_differ .. | apply not_elem_of_nil] |]).
  apply NoDup_nil_2.
Qed.



(** ** The facade as a map *)

(** X3.  After [setItem(key, value)], [getItem] returns [value] for [key]
    and what it returned before for every other key; after
    [removeItem(key)], [getItem] returns [null] for [key] and what it
    returned before for every other key. *)
Theorem facade_reads_what_was_written os options json key key' value
    (s : Store) :
  result (getItem key' (fields (setItem os options json key value s)))
  = (if decide (key = key') then Some value else result (getItem key' s)) ∧
  result (getItem key' (fields (removeItem os options json key s)))
  = (if decide (key = key') then None else result (getItem key' s)).
Proof.
  split.
  - cbn [getItem setItem fields result memory set_memory].
    apply lookup_insert.
  - unfold removeItem. case_bool_decide as Hin;
      cbn [getItem fields result memory set_memory].
    + apply lookup_delete.
    + case_decide as Hk; [|done]. subst key'.
      by apply eq_None_not_Some.
Qed.

(** X4.  No sequence of [setItem]/[removeItem] calls changes the key handle
    or the protection flag, and it starts at most one background sync per
    call. *)
Theorem mutate_keeps_key_and_flag os options json ops : ∀ s : Store,
  let after := mutate os options json ops s in
  encryptionKey (fst after) = encryptionKey s ∧
  biometricsEnabled (fst after) = biometricsEnabled s ∧
  (List.length (snd after) ≤ List.length ops)%nat.
Proof.
  induction ops as [|op later IH]; intros s; cbn [mutate fst snd List.length];
    [auto|].
  destruct op as [k v | k].
  - destruct (IH (fields (setItem os options json k v s))) as (Hk & Hb & Hl).
    cbn [setItem fields started] in *. rewrite Hk, Hb.
    cbn [app List.length]. repeat split; lia.
  - destruct (IH (fields (removeItem os options json k s))) as (Hk & Hb & Hl).
    revert Hk Hb Hl. unfold removeItem. case_bool_decide;
      cbn [fields started app List.length]; intros -> -> Hl; repeat split; lia.
Qed.

(** ** [syncToStorage] *)

(** X5.  On web, or when the key handle is [null] or the empty string,
    [syncToStorage] resolves at once: no native call, no log line, fields
    and world untouched. *)
Theorem syncToStorage_noop_on_web_or_without_key
    {W} (handle : Handler W) os options json (s : Store) (w : W) :
  os = "web" ∨ truthy (encryptionKey s) = false →
  run handle (syncToStorage os options json s) w
  = {| world := w; trace := []; value := (s, inr tt) |}.
Proof.
  intros Hguard.
  assert (on_web os || negb (truthy (encryptionKey s)) = true) as Hg.
  { destruct Hguard as [-> | ->]; [reflexivity|]. apply orb_true_r. }
  expose. rewrite Hg. reflexivity.
Qed.

Lemma syncToStorage_noop_on_web_or_without_key_witness :
  truthy (encryptionKey (set_encryptionKey (Some "") demo_store)) = false ∧
  run (handle_device demo_aes)
    (syncToStorage "ios" demo_options demo_json
       (set_encryptionKey (Some "") demo_store)) demo_device
  = {| world := demo_device; trace := [];
       value := (set_encryptionKey (Some "") demo_store, inr tt) |}.
Proof.
  split; [reflexivity|].
  apply (syncToStorage_noop_on_web_or_without_key (handle_device demo_aes)
           "ios" demo_options demo_json
           (set_encryptionKey (Some "") demo_store) demo_device).
  right. reflexivity.
Defined.

Ltac read_more :=
  cbn [existsb forallb writes_only is_getItem is_setItem is_any_setItem
       is_setGenericPassword is_getGenericPassword is_keychain_call
       is_randomKey is_decrypt is_rejected is_log_line
       fetched getItem_answer is_canceled_rejection rejected_with flag_after
       is_canceled_key_retrieval is_error_line on_call orb andb negb
       level text detail String.eqb Ascii.eqb Bool.eqb fst snd];
  rewrite ?String.eqb_refl, ?data_key_is_not_preference_key,
    ?preference_key_is_not_data_key;
  cbn [orb andb negb].

Lemma syncToStorage_facts os options json s :
  always (syncToStorage os options json s) (λ t out,
    out = (s, inr tt) ∧
    existsb is_keychain_call t = false ∧
    writes_only (encryptedDataKey (config options)) t = true ∧
    existsb is_rejected t
    = existsb (is_error_line "[KeychainStore] Error syncing to AsyncStorage:")
        t).
Proof. paths; read_more; done. Qed.

(** X6.  However the native side answers, [syncToStorage] resolves (it
    never rejects) and leaves the fields as they were; it never calls the
    keychain; the only AsyncStorage name it writes is the blob key; and it
    logs "Error syncing to AsyncStorage:" exactly when one of its native
    calls rejected. *)
Theorem syncToStorage_swallows_failures
    {W} (handle : Handler W) os options json (s : Store) (w : W) :
  let r := run handle (syncToStorage os options json s) w in
  value r = (s, inr tt) ∧
  existsb is_keychain_call (trace r) = false ∧
  writes_only (encryptedDataKey (config options)) (trace r) = true ∧
  existsb is_rejected (trace r)
  = existsb (is_error_line "[KeychainStore] Error syncing to AsyncStorage:")
      (trace r).
Proof.
  intros r.
  exact (always_run handle _ _ (syncToStorage_facts os options json s) w).
Qed.

Lemma background_sync_facts os options json s msg :
  String.eqb "[KeychainStore] Error syncing to AsyncStorage:" msg = false →
  always (background_sync os options json s msg) (λ t _,
    existsb (is_error_line msg) t = false).
Proof.
  intros Hmsg. unfold background_sync.
  paths; cbn [existsb is_error_line level text orb]; rewrite ?Hmsg; done.
Qed.

(** X7.  The [.catch] handlers that [setItem] and [removeItem] attach to
    the promise of [syncToStorage] never run: whatever the native side
    does, the background task never logs "Background sync to storage
    failed:" (for [setItem]) nor "Background sync on remove failed:" (for
    [removeItem]), because [syncToStorage] catches every rejection
    itself. *)
Theorem facade_catch_handlers_never_fire
    {W} (handle : Handler W) os options json key value (s : Store) (w : W) :
  (∀ task, In task (started (setItem os options json key value s)) →
     existsb (is_error_line
                "[KeychainStore] Background sync to storage failed:")
       (trace (run handle task w)) = false) ∧
  (∀ task, In task (started (removeItem os options json key s)) →
     existsb (is_error_line
                "[KeychainStore] Background sync on remove failed:")
       (trace (run handle task w)) = false).
Proof.
  split; intros task Hin.
  - cbn [setItem started In] in Hin. destruct Hin as [<- | []].
    by apply (always_run handle _ _
                (background_sync_facts os options json _
                   "[KeychainStore] Background sync to storage failed:"
                   eq_refl)).
  - revert Hin. unfold removeItem. case_bool_decide; cbn [started In];
      intros Hin; [|done]. destruct Hin as [<- | []].
    by apply (always_run handle _ _
                (background_sync_facts os options json _
                   "[KeychainStore] Background sync on remove failed:"
                   eq_refl)).
Qed.

Lemma facade_catch_handlers_never_fire_witness :
  existsb (is_error_line "[KeychainStore] Background sync to storage failed:")
    (trace (run (handle_device demo_aes)
              (background_sync "ios" demo_options demo_json
                 (fields (setItem "ios" demo_options demo_json "b" "2"
                            demo_store))
                 "[KeychainStore] Background sync to storage failed:")
              failing_at_blob_write)) = false.
Proof.
  apply (proj1 (facade_catch_handlers_never_fire (handle_device demo_aes)
                  "ios" demo_options demo_json "b" "2" demo_store
                  failing_at_blob_write)).
  left. reflexivity.
Defined.

(** ** [initialize] *)

(** X9.  On web [initialize] resolves at once: no native call, no log
    line, fields and world untouched. *)
Theorem initialize_on_web_is_noop
    {W} (handle : Handler W) os options json (s : Store) (w : W) :
  os = "web" →
  run handle (initialize os options json s) w
  = {| world := w; trace := []; value := (s, inr tt) |}.
Proof. intros ->. reflexivity. Qed.

Lemma initialize_on_web_is_noop_witness :
  run (handle_device demo_aes)
    (initialize "web" demo_options demo_json demo_store) demo_device
  = {| world := demo_device; trace := []; value := (demo_store, inr tt) |}.
Proof.
  exact (initialize_on_web_is_noop (handle_device demo_aes) "web" demo_options
           demo_json demo_store demo_device eq_refl).
Defined.

Lemma initialize_facts os options json s :
  always (initialize os options json s) (λ t out,
    (snd out = inr tt ∧
     existsb is_any_setItem t = false ∧
     (existsb is_setGenericPassword t = true →
      existsb is_randomKey t = true)) ∧
    (on_web os = false →
     ∃ r0, fetched (biometricsPreferenceKey (config options)) t = Some r0 ∧
           biometricsEnabled (fst out) = flag_after (biometricsEnabled s) r0) ∧
    (existsb (λ ev, is_canceled_rejection ev &&
                    negb (is_getItem (biometricsPreferenceKey (config options))
                            ev)) t = true →
     memory (fst out) = ∅ ∧ encryptionKey (fst out) = None) ∧
    (on_web os = false →
     existsb (is_error_line "[KeychainStore] Failed to initialize:") t = false →
     existsb (is_log_line
       "[KeychainStore] User canceled biometric prompt during key retrieval.")
       t = false →
     Ready (fst out) ∧
     ∀ blob, fetched (encryptedDataKey (config options)) t = Some (inr blob) →
             truthy blob = false →
             memory (fst out) = memory s ∧ existsb is_decrypt t = false)).
Proof.
  paths; read_more; (split; [|split; [|split]]).
  all: try done.
  all: try (intros Hweb; try discriminate; by eexists).
  all: try (rewrite ?orb_false_r, ?andb_true_r, ?andb_false_r; try done;
            cbn [orb]; congruence).
  all: intros Hweb Hf Hc; try discriminate.
  all: split; [done|]; intros blob Hb Ht; try discriminate.
  all: try (injection Hb as <-; congruence).
  all: by split.
Qed.

(** X10.  However the native side answers, [initialize] resolves (every
    error is caught), it never writes to AsyncStorage, and it writes to the
    keychain only in runs in which it asked [Aes.randomKey] for a new
    key. *)
Theorem initialize_never_rejects_nor_writes_storage
    {W} (handle : Handler W) os options json (s : Store) (w : W) :
  let r := run handle (initialize os options json s) w in
  settled r = inr tt ∧
  existsb is_any_setItem (trace r) = false ∧
  (existsb is_setGenericPassword (trace r) = true →
   existsb is_randomKey (trace r) = true).
Proof.
  intros r.
  exact (proj1 (always_run handle _ _ (initialize_facts os options json s) w)).
Qed.

Lemma initialize_never_rejects_nor_writes_storage_witness :
  let r := run (handle_device demo_aes)
             (initialize "ios" demo_options demo_json new_KeychainSyncedStore)
             blank_device in
  existsb is_setGenericPassword (trace r) = true ∧
  existsb is_randomKey (trace r) = true.
Proof.
  intros r.
  assert (existsb is_setGenericPassword (trace r) = true) as Hsave
    by (vm_compute; reflexivity).
  split; [exact Hsave|].
  exact (proj2 (proj2
    (initialize_never_rejects_nor_writes_storage (handle_device demo_aes)
       "ios" demo_options demo_json new_KeychainSyncedStore blank_device))
    Hsave).
Defined.

(** X11.  Off web, every run of [initialize] reads the preference, and
    [getBiometricsEnabled] afterwards answers accordingly: [true] exactly
    when the stored string is "true", [false] when it is anything else or
    absent, and the value it had before the call when the read rejected
    (that rejection is only logged).  This holds on every path, also when
    the run later fails or is cancelled. *)
Theorem initialize_takes_flag_from_preference
    {W} (handle : Handler W) os options json (s : Store) (w : W) :
  let r := run handle (initialize os options json s) w in
  on_web os = false →
  ∃ r0, fetched (biometricsPreferenceKey (config options)) (trace r) = Some r0 ∧
        getBiometricsEnabled (store r)
        = flag_after (getBiometricsEnabled s) r0.
Proof.
  intros r.
  exact (proj1 (proj2
    (always_run handle _ _ (initialize_facts os options json s) w))).
Qed.

Lemma initialize_takes_flag_from_preference_witness :
  let r := run (handle_device demo_aes)
             (initialize "ios" demo_options demo_json new_KeychainSyncedStore)
             demo_device in
  ∃ r0, fetched (biometricsPreferenceKey (config demo_options)) (trace r)
        = Some r0 ∧
        getBiometricsEnabled (store r)
        = flag_after (getBiometricsEnabled new_KeychainSyncedStore) r0.
Proof.
  exact (initialize_takes_flag_from_preference (handle_device demo_aes) "ios"
           demo_options demo_json new_KeychainSyncedStore demo_device eq_refl).
Defined.

(** X12.  The cancelled-prompt handling is not tied to the key read: if
    any native call of [initialize] other than the preference read rejects
    with an error the class treats as a cancelled prompt (the key save, say),
    the map is emptied and the key handle is [null] when it returns. *)
Theorem initialize_cancel_at_any_later_step_empties
    {W} (handle : Handler W) os options json (s : Store) (w : W) :
  let r := run handle (initialize os options json s) w in
  existsb (λ ev, is_canceled_rejection ev &&
                 negb (is_getItem (biometricsPreferenceKey (config options))
                         ev)) (trace r) = true →
  memory (store r) = ∅ ∧ encryptionKey (store r) = None.
Proof.
  intros r.
  exact (proj1 (proj2 (proj2
    (always_run handle _ _ (initialize_facts os options json s) w)))).
Qed.

Lemma initialize_cancel_at_any_later_step_empties_witness :
  let r := run (handle_device demo_aes)
             (initialize "ios" demo_options demo_json demo_store)
             (with_faults
                [None; None; None; None;
                 Some (ErrorObject "User canceled the operation.")]
                blank_device) in
  existsb is_setGenericPassword (trace r) = true ∧
  memory (store r) = ∅ ∧ encryptionKey (store r) = None.
Proof.
  intros r. split; [vm_compute; reflexivity|].
  apply (initialize_cancel_at_any_later_step_empties (handle_device demo_aes)
           "ios" demo_options demo_json demo_store
           (with_faults
              [None; None; None; None;
               Some (ErrorObject "User canceled the operation.")]
              blank_device)).
  vm_compute. reflexivity.
Defined.

(** X13.  Off web, a run of [initialize] that logs neither "Failed to
    initialize:" nor the cancelled-prompt line leaves the engine Ready; and
    if the blob read returned [null] or the empty string, the map is what it
    was before the call and [Aes.decrypt] was not called. *)
Theorem initialize_without_logged_failure_is_ready
    {W} (handle : Handler W) os options json (s : Store) (w : W) :
  let r := run handle (initialize os options json s) w in
  on_web os = false →
  existsb (is_error_line "[KeychainStore] Failed to initialize:") (trace r)
  = false →
  existsb (is_log_line
    "[KeychainStore] User canceled biometric prompt during key retrieval.")
    (trace r) = false →
  Ready (store r) ∧
  ∀ blob,
    fetched (encryptedDataKey (config options)) (trace r) = Some (inr blob) →
    truthy blob = false →
    memory (store r) = memory s ∧ existsb is_decrypt (trace r) = false.
Proof.
  intros r.
  exact (proj2 (proj2 (proj2
    (always_run handle _ _ (initialize_facts os options json s) w)))).
Qed.

Lemma initialize_without_logged_failure_is_ready_witness :
  Ready (store (run (handle_device demo_aes)
                  (initialize "ios" demo_options demo_json
                     new_KeychainSyncedStore) blank_device)).
Proof.
  refine (proj1 (initialize_without_logged_failure_is_ready
                   (handle_device demo_aes) "ios" demo_options demo_json
                   new_KeychainSyncedStore blank_device eq_refl _ _));
    vm_compute; reflexivity.
Defined.

(** ** [setEnableBiometrics] *)

Lemma setEnableBiometrics_reauth os options json enabled s :
  always (setEnableBiometrics os options json enabled s) (λ t out,
    on_web os = false → Ready s →
    (biometricsEnabled s = false → existsb is_getGenericPassword t = false) ∧
    (biometricsEnabled s = true →
     ∃ opts r0 rest,
       t = Logged {| level := log_;
                     text := "[KeychainStore] Rolling key to set biometrics: "
                               +:+ String_of_bool enabled;
                     detail := None |}
           :: Called (Keychain_getGenericPassword opts) r0 :: rest ∧
       ∀ err, r0 = inl err →
         out = (s, inl err) ∧
         rest = [ Logged {| level := error_;
                            text := "[KeychainStore] Failed to roll key for biometrics:";
                            detail := Some err |} ])).
Proof.
  paths; read_more; intros Hweb Hready.
  all: try (rewrite Hweb in *; cbn [orb] in *;
            match goal with H : bool_decide _ = true |- _ =>
              apply bool_decide_eq_true in H; contradiction end).
  all: split; intros Hb; try congruence; try done.
  all: eexists _, _, _; split; [reflexivity|]; intros err Herr;
    try discriminate.
  all: injection Herr as <-; done.
Qed.

Lemma setEnableBiometrics_rethrow os options json enabled s :
  always (setEnableBiometrics os options json enabled s) (λ t out,
    (Ready s → Ready (fst out)) ∧
    ∀ err, snd out = inl err →
      Exists (rejected_with err) t ∧
      last t = Some (Logged {| level := error_;
                  text := "[KeychainStore] Failed to roll key for biometrics:";
                  detail := Some err |})).
Proof.
  paths; read_more.
  all: split; [by unfold Ready|]; intros err Herr; try discriminate.
  all: injection Herr as <-; split; [|reflexivity].
  all: repeat first [apply Exists_cons_hd; exact eq_refl | apply Exists_cons_tl].
Qed.

(** X15.  A rotation on a Ready engine off web asks the keychain for the
    current key exactly when biometrics is currently on, and does so before
    anything else.  If that read rejects, the same error is thrown to the
    caller, the fields are unchanged, and nothing further happens besides
    the error log line: no key is generated, nothing is written. *)
Theorem setEnableBiometrics_reauthenticates_first
    {W} (handle : Handler W) os options json enabled (s : Store) (w : W) :
  let r := run handle (setEnableBiometrics os options json enabled s) w in
  on_web os = false → Ready s →
  (biometricsEnabled s = false →
   existsb is_getGenericPassword (trace r) = false) ∧
  (biometricsEnabled s = true →
   ∃ opts r0 rest,
     trace r
     = Logged {| level := log_;
                 text := "[KeychainStore] Rolling key to set biometrics: "
                           +:+ String_of_bool enabled;
                 detail := None |}
       :: Called (Keychain_getGenericPassword opts) r0 :: rest ∧
     ∀ err, r0 = inl err →
       value r = (s, inl err) ∧
       rest = [ Logged {| level := error_;
                          text := "[KeychainStore] Failed to roll key for biometrics:";
                          detail := Some err |} ]).
Proof.
  intros r.
  exact (always_run handle _ _
           (setEnableBiometrics_reauth os options json enabled s) w).
Qed.

Lemma setEnableBiometrics_reauthenticates_first_witness :
  biometricsEnabled demo_store = false ∧
  existsb is_getGenericPassword
    (trace (run (handle_device demo_aes)
              (setEnableBiometrics "ios" demo_options demo_json true
                 demo_store) demo_device)) = false.
Proof.
  split; [reflexivity|].
  refine (proj1 (setEnableBiometrics_reauthenticates_first
                   (handle_device demo_aes) "ios" demo_options demo_json true
                   demo_store demo_device eq_refl _) eq_refl).
  intros H. discriminate H.
Defined.

(** X16.  [setEnableBiometrics] never clears the key handle: a Ready engine
    is Ready after every run.  And whenever it throws, the error thrown is
    the one some native call of the run rejected with, and the last thing
    the run did was log it under "Failed to roll key for biometrics:". *)
Theorem setEnableBiometrics_rethrows_and_stays_ready
    {W} (handle : Handler W) os options json enabled (s : Store) (w : W) :
  let r := run handle (setEnableBiometrics os options json enabled s) w in
  (Ready s → Ready (store r)) ∧
  ∀ err, settled r = inl err →
    Exists (rejected_with err) (trace r) ∧
    last (trace r)
    = Some (Logged {| level := error_;
                      text := "[KeychainStore] Failed to roll key for biometrics:";
                      detail := Some err |}).
Proof.
  intros r.
  exact (always_run handle _ _
           (setEnableBiometrics_rethrow os options json enabled s) w).
Qed.

Lemma setEnableBiometrics_rethrows_and_stays_ready_witness :
  let r := run (handle_device demo_aes)
             (setEnableBiometrics "ios" demo_options demo_json true demo_store)
             failing_at_blob_write in
  settled r = inl (ErrorObject "disk full") ∧
  Exists (rejected_with (ErrorObject "disk full")) (trace r).
Proof.
  intros r.
  assert (settled r = inl (ErrorObject "disk full")) as Hfail
    by (vm_compute; reflexivity).
  split; [exact Hfail|].
  exact (proj1 (proj2
    (setEnableBiometrics_rethrows_and_stays_ready (handle_device demo_aes)
       "ios" demo_options demo_json true demo_store failing_at_blob_write)
    _ Hfail)).
Defined.

(** ** On a device *)

(** X8.  On a device where any of the calls may reject, a [syncToStorage]
    of a store with a non-empty key never changes the keychain, and either
    leaves AsyncStorage exactly as it was or replaces the value under the
    blob key, and nothing else, by a blob that opens under the store's key
    to the store's current map (given collaborators that keep their
    promises). *)
Theorem syncToStorage_replaces_blob_or_leaves_it
    aes json os options (s : Store) (d : Device) key :
  Laws aes json → on_web os = false →
  encryptionKey s = Some key → key ≠ "" →
  let d' := world (run (handle_device aes) (syncToStorage os options json s) d) in
  keychain d' = keychain d ∧
  (asyncStorage d' = asyncStorage d ∨
   ∃ blob,
     asyncStorage d'
     = <[encryptedDataKey (config options) := blob]> (asyncStorage d) ∧
     open_blob aes json key blob = Some (memory s)).
Proof.
  intros HL Hweb Hk Hne.
  destruct d as [st kc en dr fl].
  destruct fl as [|[e1|] [|[e2|] [|[e3|] fl]]].
  all: on_device; rewrite Hweb, Hk, truthy_Some by done; on_device.
  all: split; [reflexivity|].
  all: try (left; reflexivity).
  all: right; eexists; split; [reflexivity|]; by apply open_blob_sealed.
Qed.

Lemma syncToStorage_replaces_blob_or_leaves_it_witness :
  keychain (world (run (handle_device demo_aes)
                     (syncToStorage "ios" demo_options demo_json demo_store)
                     (with_faults [None; Some (ErrorObject "cipher failure")]
                        demo_device)))
  = keychain demo_device.
Proof.
  refine (proj1 (syncToStorage_replaces_blob_or_leaves_it demo_aes demo_json
                   "ios" demo_options demo_store
                   (with_faults [None; Some (ErrorObject "cipher failure")]
                      demo_device) "k0" demo_laws eq_refl eq_refl _)).
  intros H. discriminate H.
Defined.

(** X17.  On a device whose calls succeed, with collaborators that keep
    their promises, [decryptData] applied to what [encryptData] returned for
    [data] under the active non-empty key resolves to [data]; neither
    changes the fields. *)
Theorem encryptData_then_decryptData_round_trip
    aes json data key (s : Store) (d : Device) :
  Laws aes json → faults d = [] →
  encryptionKey s = Some key → key ≠ "" →
  let r := run (handle_device aes) (encryptData json data key s) d in
  ∃ blob,
    value r = (s, inr blob) ∧
    value (run (handle_device aes) (decryptData json blob s) (world r))
    = (s, inr data).
Proof.
  intros HL Hf Hk Hne.
  destruct d as [st kc en dr fl]. cbn [faults] in Hf. subst fl.
  on_device. eexists. split; [reflexivity|].
  on_device. rewrite Hk, truthy_Some by done. on_device.
  rewrite (parse_stringify_envelope _ _ HL). on_device.
  by rewrite (decrypt_encrypt _ _ HL).
Qed.

Lemma encryptData_then_decryptData_round_trip_witness :
  let r := run (handle_device demo_aes)
             (encryptData demo_json "plain text" "k0" demo_store)
             demo_device in
  ∃ blob,
    value r = (demo_store, inr blob) ∧
    value (run (handle_device demo_aes) (decryptData demo_json blob demo_store)
             (world r))
    = (demo_store, inr "plain text").
Proof.
  refine (encryptData_then_decryptData_round_trip demo_aes demo_json
            "plain text" "k0" demo_store demo_device demo_laws eq_refl
            eq_refl _).
  intros H. discriminate H.
Defined.

(** X18.  [saveEncryptionKeyToKeychain] and [getEncryptionKeyFromKeychain]
    address the same keychain service whatever the biometrics flags: on a
    device whose calls succeed, the key just saved (with either flag, given
    or defaulted) is what the read returns (under either flag), and the save
    leaves AsyncStorage untouched. *)
Theorem saved_key_is_the_key_read_back
    aes options key biometrics (s s' : Store) (d : Device) :
  faults d = [] →
  let r := run (handle_device aes)
             (saveEncryptionKeyToKeychain options key biometrics s) d in
  value r = (s, inr tt) ∧
  asyncStorage (world r) = asyncStorage d ∧
  value (run (handle_device aes) (getEncryptionKeyFromKeychain options s')
           (world r))
  = (s', inr (Some key)).
Proof.
  intros Hf.
  destruct d as [st kc en dr fl]. cbn [faults] in Hf. subst fl.
  pose proof (service_of_save options
                (nullish biometrics (biometricsEnabled s))) as Hsave.
  unfold save_options in Hsave.
  on_device. cbn [nullish] in Hsave.
  rewrite Hsave, service_of_get, lookup_insert_eq.
  done.
Qed.

Lemma saved_key_is_the_key_read_back_witness :
  let r := run (handle_device demo_aes)
             (saveEncryptionKeyToKeychain demo_options "k1" (Some true)
                demo_store) demo_device in
  value (run (handle_device demo_aes)
           (getEncryptionKeyFromKeychain demo_options new_KeychainSyncedStore)
           (world r))
  = (new_KeychainSyncedStore, inr (Some "k1")).
Proof.
  exact (proj2 (proj2
    (saved_key_is_the_key_read_back demo_aes demo_options "k1" (Some true)
       demo_store new_KeychainSyncedStore demo_device eq_refl))).
Defined.

(** X14.  First launch: on a device with no key and no blob whose calls
    succeed, [initialize] derives a key, stores it in the keychain, holds it
    as key handle, leaves the map empty and AsyncStorage untouched.  A
    second fresh [initialize] on the resulting device holds the same key
    and neither generates nor saves a key. *)
Theorem first_launch_generates_key_and_next_launch_reuses_it
    aes json os options (d : Device) :
  Laws aes json → on_web os = false → faults d = [] →
  keychain d !! serviceName (config options) = None →
  asyncStorage d !! encryptedDataKey (config options) = None →
  let r1 := run (handle_device aes)
              (initialize os options json new_KeychainSyncedStore) d in
  let r2 := run (handle_device aes)
              (initialize os options json new_KeychainSyncedStore)
              (world r1) in
  let key := pbkdf2 aes (entropy d (drawn d))
               (encryptionSalt (config options)) 5000 256 "sha512" in
  encryptionKey (store r1) = Some key ∧
  memory (store r1) = ∅ ∧
  stored_key options (world r1) = Some key ∧
  asyncStorage (world r1) = asyncStorage d ∧
  encryptionKey (store r2) = Some key ∧
  existsb is_randomKey (trace r2) = false ∧
  existsb is_setGenericPassword (trace r2) = false.
Proof.
  intros HL Hweb Hf Hkc Hblob.
  destruct d as [st kc en dr fl]. cbn [faults keychain asyncStorage] in *.
  subst fl.
  pose proof (pbkdf2_nonempty _ _ HL (en dr) (encryptionSalt (config options))
                5000 256 "sha512") as Hne.
  assert (∀ b : bool,
    service_of (if b
                then spread (keychainOptionsWithBiometrics (config options))
                       (promptOptions options)
                else keychainOptionsWithoutBiometrics (config options))
    = serviceName (config options)) as Hsave by (by intros []).
  unfold stored_key. fold (config options).
  on_device. rewrite Hweb. on_device.
  rewrite !service_of_get, Hkc. on_device. cbn [truthy]. on_device.
  rewrite !Hsave, Hblob. on_device. cbn [truthy]. on_device.
  rewrite !service_of_get, !lookup_insert_eq. on_device.
  rewrite truthy_Some by done. on_device.
  rewrite Hblob. on_device. cbn [truthy]. on_device.
  read_more. done.
Qed.

Lemma first_launch_generates_key_and_next_launch_reuses_it_witness :
  let r1 := run (handle_device demo_aes)
              (initialize "ios" demo_options demo_json new_KeychainSyncedStore)
              blank_device in
  encryptionKey
    (store (run (handle_device demo_aes)
              (initialize "ios" demo_options demo_json new_KeychainSyncedStore)
              (world r1)))
  = encryptionKey (store r1).
Proof.
  intros r1.
  destruct (first_launch_generates_key_and_next_launch_reuses_it demo_aes
              demo_json "ios" demo_options blank_device demo_laws eq_refl
              eq_refl eq_refl eq_refl) as (H1 & _ & _ & _ & H2 & _).
  fold r1 in H1, H2. rewrite H1. exact H2.
Defined.

(** ** Which errors count as a cancelled prompt *)

Lemma String_prefix_spec n : ∀ h,
  String.prefix n h = true ↔ ∃ post, h = n +:+ post.
Proof.
  induction n as [|a n IH]; intros h.
  - split; [intros _; by exists h|]. intros _. by destruct h.
  - destruct h as [|b h].
    + split; [done|]. intros [post H]. discriminate H.
    + cbn [String.prefix]. destruct (ascii_dec a b) as [->|Hab].
      * rewrite IH. split; intros [post H]; exists post.
        -- change (String b h = String b (n +:+ post)). by rewrite H.
        -- change (String b h = String b (n +:+ post)) in H. by injection H.
      * split; [done|]. intros [post H].
        change (String b h = String a (n +:+ post)) in H. by injection H.
Qed.

Lemma includes_spec n : ∀ h,
  includes n h = true ↔ ∃ pre post, h = pre +:+ n +:+ post.
Proof.
  induction h as [|c h IH]; cbn [includes]; rewrite orb_true_iff, String_prefix_spec.
  - split.
    + intros [[post H] | H]; [|done]. by exists "", post.
    + intros (pre & post & H). left. destruct pre; [by exists post|].
      discriminate H.
  - rewrite IH. split.
    + intros [[post H] | (pre & post & H)]; [by exists "", post|].
      exists (String c pre), post.
      change (String c h = String c (pre +:+ n +:+ post)). by rewrite H.
    + intros (pre & post & H). destruct pre as [|c' pre].
      * left. by exists post.
      * right. exists pre, post.
        change (String c h = String c' (pre +:+ n +:+ post)) in H.
        by injection H.
Qed.

(** X19.  The errors [initialize] treats as a cancelled prompt are exactly
    the [Error] instances whose message contains "User canceled" somewhere;
    a thrown value that is not an [Error] never counts. *)
Theorem isUserCanceled_characterised (error : Thrown) :
  isUserCanceled error = true ↔
  ∃ pre post, error = ErrorObject (pre +:+ "User canceled" +:+ post).
Proof.
  destruct error as [message | description]; cbn [isUserCanceled].
  - rewrite includes_spec. split; intros (pre & post & H); exists pre, post.
    + by rewrite H.
    + by injection H.
  - split; [done|]. intros (pre & post & H). discriminate H.
Qed.

Lemma isUserCanceled_characterised_witness :
  isUserCanceled (ErrorObject "code: 13, User canceled the operation.")
  = true.
Proof.
  apply (proj2 (isUserCanceled_characterised
                  (ErrorObject "code: 13, User canceled the operation."))).
  exists "code: 13, ", " the operation.". reflexivity.
Defined.

(** ** The authentication prompt *)

(** X20.  The prompt texts passed to the keychain are never empty: a
    configured non-empty title is used as is, and a title configured as the
    empty string falls back to "Authentication Required" (likewise the
    subtitle and the cancel label fall back to their defaults). *)
Theorem promptOptions_never_blank options :
  ∃ p, authenticationPrompt (promptOptions options) = Some p ∧
       title p ≠ "" ∧ subtitle p ≠ "" ∧ cancel p ≠ "" ∧
       (∀ s, s ≠ "" → authPrompt options ≫= opt_title = Some s → title p = s) ∧
       (authPrompt options ≫= opt_title = Some "" →
        title p = "Authentication Required").
Proof.
  eexists. split; [reflexivity|]. cbn [title subtitle cancel].
  assert (∀ a b, b ≠ "" → or_else a b ≠ "") as Hne.
  { intros [s|] b Hb; cbn [or_else]; [|done].
    destruct (String.eqb_spec s ""); done. }
  repeat split; try (apply Hne; discriminate).
  - intros s Hs ->. cbn [or_else]. by apply String.eqb_neq in Hs as ->.
  - by intros ->.
Qed.

Lemma promptOptions_never_blank_witness :
  let options :=
    {| authPrompt := Some {| opt_title := Some ""; opt_subtitle := None;
                             opt_cancel := Some "Not now" |};
       storagePrefixKey := None; storageVersion := None;
       enableLogging := None |} in
  ∃ p, authenticationPrompt (promptOptions options) = Some p ∧
       title p = "Authentication Required".
Proof.
  intros options.
  destruct (promptOptions_never_blank options) as (p & Hp & _ & _ & _ & _ & Hd).
  exists p. split; [exact Hp|]. apply Hd. reflexivity.
Defined.
